(** * Personalised Learning Assistant: quiz parsing, grading and progress store

    A shallow embedding of the pure and the store-passing parts of
    [learning_assistant/agents/quiz_agent.py], [learning_assistant/tools.py],
    [learning_assistant/agents/personalisation_engine.py],
    [learning_assistant/orchestrator.py] and [learning_assistant/config.py],
    followed by the properties of the specification that concern them and
    by further properties of the code.

    Conventions of the embedding.
    - A Python [str] is a [string] of 8-bit characters; the string methods
      below are those of Python on ASCII text.
    - A Python [dict] used as a map is a [gmap]; a [dict] used as a record
      with fixed keys is a [Record].
    - A Python [float] is a primitive IEEE binary64 [float].
    - An operation that can raise returns [Res]; code that reads or writes the
      progress file is a function of the file's content (monad [IO]). *)

From Stdlib Require Import ZArith String Ascii List Lia Bool.
From Stdlib Require Import Floats.PrimFloat Floats.SpecFloat Floats.FloatOps.
From stdpp Require Import base option gmap strings list.

Local Open Scope string_scope.
Local Open Scope list_scope.

(** ** Python values and built-in operations *)

Module Py.

(** The built-in exceptions the embedded code can raise. *)
Inductive exn : Type :=
| IndexError
| ZeroDivisionError.

(** Result of an expression that may raise. *)
Inductive Res (A : Type) : Type :=
| Ok (a : A)
| Raise (e : exn).
Arguments Ok {A} a.
Arguments Raise {A} e.

Definition bind {A B} (r : Res A) (k : A -> Res B) : Res B :=
  match r with
  | Ok a => k a
  | Raise e => Raise e
  end.

(** [for x in xs: acc = body(acc, x)], stopping at the first exception. *)
Fixpoint for_each {A S} (body : S -> A -> Res S) (xs : list A) (acc : S)
  : Res S :=
  match xs with
  | [] => Ok acc
  | x :: xs' => bind (body acc x) (for_each body xs')
  end.

(** *** Strings *)

(** [str.isspace] on one ASCII character: tab, newline, vertical tab, form
    feed, carriage return, the four separators 0x1c-0x1f, and space. *)
Definition isspace (c : ascii) : bool :=
  let n := nat_of_ascii c in
  ((9 <=? n)%nat && (n <=? 13)%nat) || ((28 <=? n)%nat && (n <=? 32)%nat).

Fixpoint lstrip (s : string) : string :=
  match s with
  | EmptyString => EmptyString
  | String c s' => if isspace c then lstrip s' else s
  end.

Fixpoint rstrip (s : string) : string :=
  match s with
  | EmptyString => EmptyString
  | String c s' =>
      match rstrip s' with
      | EmptyString => if isspace c then EmptyString else String c EmptyString
      | r => String c r
      end
  end.

(** [s.strip()] *)
Definition strip (s : string) : string := rstrip (lstrip s).

(** Truth value of a [str]: non-empty. *)
Definition truthy (s : string) : bool :=
  match s with
  | EmptyString => false
  | String _ _ => true
  end.

(** [s.startswith(p)] *)
Definition startswith (s p : string) : bool := String.prefix p s.

(** [sub in s] *)
Fixpoint contains (sub s : string) : bool :=
  String.prefix sub s
  || match s with
     | EmptyString => false
     | String _ s' => contains sub s'
     end.

(** [s[n:]] for [n >= 0] *)
Fixpoint slice_from (n : nat) (s : string) : string :=
  match n, s with
  | O, _ => s
  | S _, EmptyString => EmptyString
  | S n', String _ s' => slice_from n' s'
  end.

(** [s[0]] *)
Definition first_char (s : string) : Res string :=
  match s with
  | EmptyString => Raise IndexError
  | String c _ => Ok (String c EmptyString)
  end.

(** [xs[i]] for [i >= 0] *)
Definition item {A} (xs : list A) (i : nat) : Res A :=
  match nth_error xs i with
  | Some x => Ok x
  | None => Raise IndexError
  end.

(** [s.split(sep, maxsplit)] for a non-empty [sep], scanning left to right
    for non-overlapping occurrences.  [budget] is the number of splits
    still allowed ([None]: no limit); [skip] counts the characters of a
    separator just matched that remain to be passed over; [cur] is the
    piece being accumulated. *)
Fixpoint split_go (sep : string) (budget : option nat) (skip : nat)
         (cur : string) (s : string) : list string :=
  match s with
  | EmptyString => [cur]
  | String c s' =>
      match skip with
      | S k => split_go sep budget k cur s'
      | O =>
          match budget with
          | Some O => [cur +:+ s]
          | _ =>
              if String.prefix sep s
              then cur :: split_go sep (pred <$> budget)
                                   (String.length sep - 1) EmptyString s'
              else split_go sep budget 0 (cur +:+ String c EmptyString) s'
          end
      end
  end.

(** [s.split(sep)] *)
Definition split (s sep : string) : list string :=
  split_go sep None 0 EmptyString s.

(** [s.split(sep, maxsplit)] *)
Definition split_max (s sep : string) (maxsplit : nat) : list string :=
  split_go sep (Some maxsplit) 0 EmptyString s.

Definition upper_char (c : ascii) : ascii :=
  let n := nat_of_ascii c in
  if (97 <=? n)%nat && (n <=? 122)%nat then ascii_of_nat (n - 32) else c.

(** [s.upper()] *)
Fixpoint upper (s : string) : string :=
  match s with
  | EmptyString => EmptyString
  | String c s' => String (upper_char c) (upper s')
  end.

(** The newline character and [sep.join(xs)]. *)
Definition nl : string := String (ascii_of_nat 10) EmptyString.

Fixpoint join (sep : string) (xs : list string) : string :=
  match xs with
  | [] => EmptyString
  | [x] => x
  | x :: xs' => x +:+ sep +:+ join sep xs'
  end.

(** *** Numbers *)

(** [float(z)], correctly rounded. *)
Definition float_of_int (z : Z) : float :=
  SF2Prim (binary_normalize prec emax z 0 false).

(** [a / b] on two [int]s (true division).  The quotient of the two
    converted operands is CPython's result whenever both fit in 53 bits;
    beyond that CPython rounds the exact quotient once and raises
    [OverflowError] when it exceeds the range of a float, which this
    definition does not follow. *)
Definition int_truediv (a b : Z) : Res float :=
  if (b =? 0)%Z then Raise ZeroDivisionError
  else Ok (PrimFloat.div (float_of_int a) (float_of_int b)).

(** [x / n] for a [float] and an [int]. *)
Definition float_div_int (x : float) (n : Z) : Res float :=
  if (n =? 0)%Z then Raise ZeroDivisionError
  else Ok (PrimFloat.div x (float_of_int n)).

(** [x * n] for a [float] and an [int]. *)
Definition float_mul_int (x : float) (n : Z) : float :=
  PrimFloat.mul x (float_of_int n).

(** [x >= n] for a [float] and a small [int]. *)
Definition float_ge_int (x : float) (n : Z) : bool :=
  PrimFloat.leb (float_of_int n) x.

(** [sum(xs)] over floats, from the integer [0]: a left-to-right fold.
    (CPython 3.12 and later compensate the rounding of this fold.) *)
Definition sum (xs : list float) : float :=
  fold_left PrimFloat.add xs PrimFloat.zero.

(** A number that is an [int] or a [float]. *)
Inductive number : Type :=
| Int (z : Z)
| Float (x : float).

(** *** Lists *)

(** [xs[k:]] for any integer [k]: a negative [k] counts from the end, and
    both ends are clamped. *)
Definition list_slice_from {A} (k : Z) (xs : list A) : list A :=
  let len := Z.of_nat (length xs) in
  let start := if (k <? 0)%Z then Z.max (len + k) 0 else Z.min k len in
  skipn (Z.to_nat start) xs.

End Py.

Import Py.

Notation "'do' x <- e ; k" := (Py.bind e (fun x => k))
  (at level 10, x name, e at level 100, k at level 200, only parsing).

(** ** [learning_assistant/config.py] *)

Module config.

Definition ADVANCED_THRESHOLD : Z := 85.
Definition INTERMEDIATE_THRESHOLD : Z := 70.
Definition RECENT_SCORES_COUNT : Z := 3.

End config.

(** ** [learning_assistant/agents/quiz_agent.py] *)

Module QuizAgent.

(** A question dictionary.  [explanation] is [None] when the key is absent,
    which only a hand-built question can be: the parser always sets it. *)
Record QuizQuestion : Type := {
  question : string;
  options : gmap string string;
  correct : string;
  explanation : option string
}.

Definition set_question (q : QuizQuestion) (v : string) : QuizQuestion :=
  {| question := v; options := options q; correct := correct q;
     explanation := explanation q |}.

Definition set_option (q : QuizQuestion) (key value : string)
  : QuizQuestion :=
  {| question := question q; options := <[key := value]> (options q);
     correct := correct q; explanation := explanation q |}.

Definition set_correct (q : QuizQuestion) (v : string) : QuizQuestion :=
  {| question := question q; options := options q; correct := v;
     explanation := explanation q |}.

Definition set_explanation (q : QuizQuestion) (v : string) : QuizQuestion :=
  {| question := question q; options := options q; correct := correct q;
     explanation := Some v |}.

(** The dictionary a block starts from. *)
Definition empty_question : QuizQuestion :=
  {| question := ""; options := ∅; correct := ""; explanation := Some "" |}.

(** [[l.strip() for l in block.strip().split('\n') if l.strip()]] *)
Definition block_lines (block : string) : list string :=
  map strip
      (List.filter (fun l => truthy (strip l)) (split (strip block) nl)).

(** [line.startswith(('Q', 'Question'))] *)
Definition is_question_line (line : string) : bool :=
  startswith line "Q" || startswith line "Question".

(** [line.startswith(('A)', 'B)', 'C)', 'D)'))] *)
Definition is_option_line (line : string) : bool :=
  startswith line "A)" || startswith line "B)"
  || startswith line "C)" || startswith line "D)".

Definition is_correct_line (line : string) : bool :=
  startswith line "Correct:".

Definition is_explanation_line (line : string) : bool :=
  startswith line "Explanation:".

(** The text of a question line: what follows the first colon, or the
    whole line when it has none. *)
Definition question_text (line : string) : Res string :=
  if contains ":" line
  then do rest <- item (split_max line ":" 1) 1; Ok (strip rest)
  else Ok line.

(** First loop of a block: the first question line sets the text, then
    [break]. *)
Fixpoint parse_question (q : QuizQuestion) (lines : list string)
  : Res QuizQuestion :=
  match lines with
  | [] => Ok q
  | line :: lines' =>
      if is_question_line line
      then do text <- question_text line; Ok (set_question q text)
      else parse_question q lines'
  end.

(** Body of the second loop: one line of options and metadata. *)
Definition parse_line (q : QuizQuestion) (line : string)
  : Res QuizQuestion :=
  if is_option_line line then
    do key <- first_char line;
    let value := strip (slice_from 2 line) in
    Ok (set_option q key value)
  else if is_correct_line line then
    do rest <- item (split line ":") 1;
    let correct_text := strip rest in
    do letter <- first_char correct_text;
    Ok (set_correct q (upper letter))
  else if is_explanation_line line then
    do rest <- item (split_max line ":" 1) 1;
    Ok (set_explanation q (strip rest))
  else Ok q.

(** Truth value of the options dictionary: non-empty. *)
Definition has_options (q : QuizQuestion) : bool :=
  negb (bool_decide (options q = ∅)).

(** The final test of a block: all required components are present. *)
Definition complete (q : QuizQuestion) : bool :=
  truthy (question q) && has_options q && truthy (correct q).

(** One iteration of the loop over blocks: [None] is [continue] or a
    question that is not appended. *)
Definition parse_block (block : string) : Res (option QuizQuestion) :=
  if negb (truthy (strip block)) then Ok None
  else
    let lines := block_lines block in
    if (length lines <? 6)%nat then Ok None
    else
      do q1 <- parse_question empty_question lines;
      do q2 <- for_each parse_line lines q1;
      if complete q2 then Ok (Some q2) else Ok None.

Definition parse_blocks (questions : list QuizQuestion)
           (question_blocks : list string) : Res (list QuizQuestion) :=
  for_each
    (fun questions block =>
       do r <- parse_block block;
       Ok (match r with
           | Some q => questions ++ [q]
           | None => questions
           end))
    question_blocks questions.

Definition _parse_quiz (quiz_text : string) : Res (list QuizQuestion) :=
  parse_blocks [] (split quiz_text "---").

(** *** Grading *)

Record Evaluation : Type := {
  ev_correct : bool;
  ev_explanation : string;
  ev_correct_answer : string
}.

Definition evaluate_answer (q : QuizQuestion) (user_answer : string)
  : Evaluation :=
  let is_correct :=
    bool_decide (upper user_answer = upper (correct q)) in
  {| ev_correct := is_correct;
     ev_explanation := default "No explanation available." (explanation q);
     ev_correct_answer := correct q |}.

Record QuestionResult : Type := {
  question_num : Z;
  result_question : string;
  user_answer : string;
  correct_answer : string;
  is_correct : bool;
  result_explanation : string
}.

Record QuizResult : Type := {
  score : Z;
  total : Z;
  percentage : number;
  results : list QuestionResult
}.

(** The loop [for i, question in enumerate(questions)], from index [i],
    threading [results] and [score]. *)
Fixpoint evaluate_loop (user_answers : gmap Z string) (i : Z)
         (questions : list QuizQuestion)
         (results : list QuestionResult) (score : Z)
  : list QuestionResult * Z :=
  match questions with
  | [] => (results, score)
  | q :: questions' =>
      let user_answer := default "" (user_answers !! i) in
      let evaluation := evaluate_answer q user_answer in
      let score' := if ev_correct evaluation then (score + 1)%Z else score in
      let result :=
        {| question_num := (i + 1)%Z;
           result_question := question q;
           user_answer := user_answer;
           correct_answer := ev_correct_answer evaluation;
           is_correct := ev_correct evaluation;
           result_explanation := ev_explanation evaluation |} in
      evaluate_loop user_answers (i + 1)%Z questions'
                    (results ++ [result]) score'
  end.

Definition evaluate_quiz (questions : list QuizQuestion)
           (user_answers : gmap Z string) : Res QuizResult :=
  let '(results, score) := evaluate_loop user_answers 0 questions [] 0%Z in
  let len := Z.of_nat (length questions) in
  do percentage <-
     match questions with
     | _ :: _ =>
         do ratio <- int_truediv score len;
         Ok (Float (float_mul_int ratio 100))
     | [] => Ok (Int 0)
     end;
  Ok {| score := score; total := len; percentage := percentage;
        results := results |}.

End QuizAgent.

(** ** The progress file *)

Module Storage.

(** A quiz score record, as [update_quiz_score] writes it. *)
Record QuizRecord : Type := {
  topic : string;
  score : Z;
  total : Z;
  percentage : float;
  timestamp : string
}.

(** The progress of one user. *)
Record UserProgress : Type := {
  topics_studied : list string;
  quiz_scores : list QuizRecord;
  current_difficulty : string;
  total_time : Z
}.

(** The content of the file at [storage_path]: [None] while the file does
    not exist, otherwise the JSON object it holds, from user id to
    progress. *)
Abbreviation file := (option (gmap string UserProgress)).

(** Code that reads or writes the file and may raise: the content of the
    file is threaded through, and is still there after an exception. *)
Definition IO (A : Type) : Type := file -> Res A * file.

Definition ret {A} (a : A) : IO A := fun f => (Ok a, f).

Definition bind {A B} (m : IO A) (k : A -> IO B) : IO B :=
  fun f =>
    match m f with
    | (Ok a, f') => k a f'
    | (Raise e, f') => (Raise e, f')
    end.

(** A pure expression that may raise, inside [IO]. *)
Definition lift {A} (r : Res A) : IO A := fun f => (r, f).

(** [os.path.exists(storage_path)] *)
Definition exists_ : IO bool := fun f => (Ok (bool_decide (is_Some f)), f).

(** [json.load] of the file; the code only reads a file that exists. *)
Definition read : IO (gmap string UserProgress) :=
  fun f => (Ok (default ∅ f), f).

(** [json.dump(data, f)] into the file, created or truncated. *)
Definition write (data : gmap string UserProgress) : IO unit :=
  fun _ => (Ok tt, Some data).

End Storage.

Import Storage.

Notation "'io' x <- e ; k" := (Storage.bind e (fun x => k))
  (at level 10, x name, e at level 100, k at level 200, only parsing).
Notation "'run' e ; k" := (Storage.bind e (fun _ => k))
  (at level 10, e at level 100, k at level 200, only parsing).

(** ** [learning_assistant/tools.py] *)

Module tools.

(** The record returned for a user the file does not know. *)
Definition default_progress : UserProgress :=
  {| topics_studied := []; quiz_scores := [];
     current_difficulty := "beginner"; total_time := 0 |}.

Definition load_user_progress (user_id : string) : IO UserProgress :=
  io present <- exists_;
  run (if present then ret tt else write ∅);
  io data <- read;
  ret (default default_progress (data !! user_id)).

Definition save_user_progress (user_id : string)
           (progress_data : UserProgress) : IO unit :=
  io present <- exists_;
  io data <- (if present then read else ret ∅);
  write (<[user_id := progress_data]> data).

Definition calculate_difficulty (quiz_scores : list QuizRecord)
           (recent_count : Z) : Res string :=
  match quiz_scores with
  | [] => Ok "beginner"
  | _ :: _ =>
      let recent_scores := list_slice_from (- recent_count) quiz_scores in
      do avg_percentage <-
         float_div_int (sum (map percentage recent_scores))
                       (Z.of_nat (length recent_scores));
      if float_ge_int avg_percentage 85 then Ok "advanced"
      else if float_ge_int avg_percentage 70 then Ok "intermediate"
      else Ok "beginner"
  end.

(** The record appended by an update; [now] is
    [datetime.now().isoformat()]. *)
Definition new_record (topic : string) (score total : Z) (now : string)
  : Res QuizRecord :=
  do ratio <- int_truediv score total;
  Ok {| topic := topic; score := score; total := total;
        percentage := float_mul_int ratio 100; timestamp := now |}.

Definition append_score (progress : UserProgress) (r : QuizRecord)
  : UserProgress :=
  {| topics_studied := topics_studied progress;
     quiz_scores := quiz_scores progress ++ [r];
     current_difficulty := current_difficulty progress;
     total_time := total_time progress |}.

(** [if topic not in progress["topics_studied"]: ...append(topic)] *)
Definition add_topic (progress : UserProgress) (topic : string)
  : UserProgress :=
  if bool_decide (topic ∈ topics_studied progress) then progress
  else {| topics_studied := topics_studied progress ++ [topic];
          quiz_scores := quiz_scores progress;
          current_difficulty := current_difficulty progress;
          total_time := total_time progress |}.

Definition set_difficulty (progress : UserProgress) (d : string)
  : UserProgress :=
  {| topics_studied := topics_studied progress;
     quiz_scores := quiz_scores progress;
     current_difficulty := d;
     total_time := total_time progress |}.

(** [recent_count] is left to its default, 3. *)
Definition update_quiz_score (user_id topic : string) (score total : Z)
           (now : string) : IO UserProgress :=
  io progress <- load_user_progress user_id;
  io r <- lift (new_record topic score total now);
  let progress := append_score progress r in
  let progress := add_topic progress topic in
  io d <- lift (calculate_difficulty (quiz_scores progress) 3);
  let progress := set_difficulty progress d in
  run save_user_progress user_id progress;
  ret progress.

(** The dictionary [get_recommendations] returns. *)
Record Recommendations : Type := {
  difficulty : string;
  topics_completed : Z;
  average_score : number;
  suggestion : string
}.

Section Recommend.

(** Python's built-in [round(x, 1)] on a float, left uninterpreted. *)
Variable round1 : float -> float.

Definition get_recommendations (user_id : string) : IO Recommendations :=
  io progress <- load_user_progress user_id;
  match quiz_scores progress with
  | _ :: _ =>
      io avg_score <-
         lift (float_div_int (sum (map percentage (quiz_scores progress)))
                             (Z.of_nat (length (quiz_scores progress))));
      ret {| difficulty := current_difficulty progress;
             topics_completed := Z.of_nat (length (topics_studied progress));
             average_score := Float (round1 avg_score);
             suggestion :=
               if float_ge_int avg_score 80
               then "Great progress! Try more advanced topics."
               else if float_ge_int avg_score 60
               then "Good work! Keep practising to improve."
               else "Review fundamentals and try easier topics." |}
  | [] =>
      ret {| difficulty := current_difficulty progress;
             topics_completed := Z.of_nat (length (topics_studied progress));
             average_score := Int 0;
             suggestion := "Start your learning journey!" |}
  end.

End Recommend.

End tools.

(** ** [learning_assistant/agents/personalisation_engine.py] *)

Module PersonalisationEngine.

(** [_ensure_storage], run by the constructor. *)
Definition _ensure_storage : IO unit :=
  io present <- exists_;
  if present then ret tt else write ∅.

Definition load_progress (user_id : string) : IO UserProgress :=
  tools.load_user_progress user_id.

Definition save_progress (user_id : string) (progress_data : UserProgress)
  : IO unit :=
  tools.save_user_progress user_id progress_data.

Definition _calculate_difficulty (quiz_scores : list QuizRecord)
  : Res string :=
  tools.calculate_difficulty quiz_scores config.RECENT_SCORES_COUNT.

Definition update_quiz_score (user_id topic : string) (score total : Z)
           (now : string) : IO UserProgress :=
  io progress <- load_progress user_id;
  io r <- lift (tools.new_record topic score total now);
  let progress := tools.append_score progress r in
  let progress := tools.add_topic progress topic in
  io d <- lift (_calculate_difficulty (quiz_scores progress));
  let progress := tools.set_difficulty progress d in
  run save_progress user_id progress;
  ret progress.

Definition reset_progress (user_id : string) : IO unit :=
  let fresh_progress :=
    {| topics_studied := []; quiz_scores := [];
       current_difficulty := "beginner"; total_time := 0 |} in
  save_progress user_id fresh_progress.

(** The dictionary [get_progress_summary] returns. *)
Record ProgressSummary : Type := {
  summary_user_id : string;
  summary_current_difficulty : string;
  summary_topics_studied : list string;
  total_quizzes : Z;
  recent_scores : list QuizRecord;
  summary_average_score : number;
  recommendation : string
}.

Section Recommend.

(** Python's built-in [round(x, 1)] on a float, left uninterpreted. *)
Variable round1 : float -> float.

Definition get_recommendations (user_id : string)
  : IO tools.Recommendations :=
  tools.get_recommendations round1 user_id.

Definition get_progress_summary (user_id : string) : IO ProgressSummary :=
  io progress <- load_progress user_id;
  io recommendations <- get_recommendations user_id;
  let total_quizzes := Z.of_nat (length (quiz_scores progress)) in
  let recent_scores :=
    match quiz_scores progress with
    | _ :: _ => list_slice_from (-5) (quiz_scores progress)
    | [] => []
    end in
  ret {| summary_user_id := user_id;
         summary_current_difficulty := current_difficulty progress;
         summary_topics_studied := topics_studied progress;
         total_quizzes := total_quizzes;
         recent_scores := recent_scores;
         summary_average_score := tools.average_score recommendations;
         recommendation := tools.suggestion recommendations |}.

End Recommend.

End PersonalisationEngine.

(** ** [learning_assistant/orchestrator.py] *)

(** The methods of an orchestrator already built that involve no external
    agent; what they print is left out. *)
Module LearningOrchestrator.

(** The dictionary [evaluate_quiz] returns: the evaluation, the new
    difficulty and the recommendation. *)
Record QuizReport : Type := {
  score : Z;
  total : Z;
  percentage : number;
  results : list QuizAgent.QuestionResult;
  new_difficulty : string;
  recommendation : string
}.

Section Recommend.

(** Python's built-in [round(x, 1)] on a float, left uninterpreted. *)
Variable round1 : float -> float.

(** [now] is the time stamp the update gives the new record. *)
Definition evaluate_quiz (quiz_questions : list QuizAgent.QuizQuestion)
           (user_answers : gmap Z string) (topic user_id now : string)
  : IO QuizReport :=
  io evaluation <-
     lift (QuizAgent.evaluate_quiz quiz_questions user_answers);
  io updated_progress <-
     PersonalisationEngine.update_quiz_score
       user_id topic (QuizAgent.score evaluation)
       (QuizAgent.total evaluation) now;
  io recommendations <-
     PersonalisationEngine.get_recommendations round1 user_id;
  ret {| score := QuizAgent.score evaluation;
         total := QuizAgent.total evaluation;
         percentage := QuizAgent.percentage evaluation;
         results := QuizAgent.results evaluation;
         new_difficulty := current_difficulty updated_progress;
         recommendation := tools.suggestion recommendations |}.

Definition get_user_dashboard (user_id : string)
  : IO PersonalisationEngine.ProgressSummary :=
  PersonalisationEngine.get_progress_summary round1 user_id.

End Recommend.

End LearningOrchestrator.

(** ** Notions of the specification *)

Import QuizAgent.

(** The QuizQuestion invariant: [correct] is a key of [options], there are
    at least two options, and the question text is not empty. *)
Definition QuizQuestion_invariant (q : QuizQuestion) : Prop :=
  is_Some (options q !! correct q)
  ∧ (2 ≤ size (options q))%nat
  ∧ question q ≠ "".

(** What the final test of a block secures: a question text, at least one
    option, and a [correct] label that is not empty. *)
Definition populated (q : QuizQuestion) : Prop :=
  question q ≠ ""
  ∧ (1 ≤ size (options q))%nat
  ∧ correct q ≠ "".

(** A string of ASCII characters (code points below 128), on which the
    string methods of the embedding are those of Python. *)
Fixpoint is_ascii (s : string) : bool :=
  match s with
  | EmptyString => true
  | String c s' => (nat_of_ascii c <? 128)%nat && is_ascii s'
  end.

(** Two characters are the same letter up to case. *)
Definition same_letter (a b : ascii) : bool :=
  let n := nat_of_ascii a in
  let m := nat_of_ascii b in
  (n =? m)%nat
  || ((97 <=? n)%nat && (n <=? 122)%nat && (m =? n - 32)%nat)
  || ((97 <=? m)%nat && (m <=? 122)%nat && (n =? m - 32)%nat).

(** Case-insensitive equality of two labels, character by character. *)
Fixpoint caseless_eq (s t : string) : bool :=
  match s, t with
  | EmptyString, EmptyString => true
  | String a s', String b t' => same_letter a b && caseless_eq s' t'
  | _, _ => false
  end.

(** The last [n] entries of a history. *)
Definition last_entries {A} (n : nat) (xs : list A) : list A :=
  skipn (length xs - n) xs.

(** The window of the difficulty policy: the last [min(w, len(H))]
    records. *)
Definition window (w : Z) (H : list QuizRecord) : list QuizRecord :=
  last_entries (Z.to_nat (Z.min w (Z.of_nat (length H)))) H.

(** Arithmetic mean: the sum divided by the number of terms. *)
Definition mean (xs : list float) : float :=
  PrimFloat.div (sum xs) (float_of_int (Z.of_nat (length xs))).

(** The tier of a window, by the thresholds applied top-down; [beginner]
    when there is nothing to average. *)
Definition tier_of_window (records : list QuizRecord) : string :=
  match records with
  | [] => "beginner"
  | _ :: _ =>
      let m := mean (map Storage.percentage records) in
      if float_ge_int m config.ADVANCED_THRESHOLD then "advanced"
      else if float_ge_int m config.INTERMEDIATE_THRESHOLD then "intermediate"
      else "beginner"
  end.

(** The record [load] returns for a user, as a function of the file. *)
Definition stored (f : file) (user_id : string) : UserProgress :=
  default tools.default_progress (default ∅ f !! user_id).

(** The correct-answer text of a line, [line.split(':')[1].strip()]: what
    stands between the first colon of the line and its next colon, or the
    end of the line when there is no other colon, without surrounding
    white space.  For the line [Correct::B] it is empty. *)
Definition correct_text (line : string) : string :=
  strip (nth 1 (split line ":") "").

(** The text after the first colon of a line that has one. *)
Definition text_after_colon (line : string) : string :=
  strip (nth 1 (split_max line ":" 1) "").

(** The body of a question line: the text after its first colon, or the
    whole line when it has none. *)
Definition question_body (line : string) : string :=
  if contains ":" line then text_after_colon line else line.

(** The label a correct-answer line declares: the first character of its
    text, upper-cased; empty when there is no text. *)
Definition declared_letter (line : string) : string :=
  match correct_text line with
  | EmptyString => EmptyString
  | String c _ => upper (String c EmptyString)
  end.

(** The key of an option line: its first character. *)
Definition option_key (line : string) : string :=
  match line with
  | EmptyString => EmptyString
  | String c _ => String c EmptyString
  end.

(** A line the second loop passes without raising: any line that is not a
    correct-answer line, and a correct-answer line whose correct-answer text
    is not empty. *)
Definition line_ok (line : string) : bool :=
  implb (is_correct_line line) (truthy (correct_text line)).

(** Every correct-answer line of the block has a correct-answer text that
    is not empty. *)
Definition correct_lines_filled (block : string) : bool :=
  forallb line_ok (block_lines block).

(** The label of the last correct-answer line among [lines], or [d]. *)
Definition last_declared (lines : list string) (d : string) : string :=
  match last (List.filter is_correct_line lines) with
  | Some cl => declared_letter cl
  | None => d
  end.

(** The type of the two [update_quiz_score] functions; the last argument is
    the time stamp of the new record. *)
Definition update_function : Type :=
  string → string → Z → Z → string → IO UserProgress.


(** The update raises the division error and the records of the file are
    those it held before (at most the file was created, empty). *)
Definition update_rejected (update : update_function)
           (user_id topic : string) (score total : Z) (now : string)
           (f : file) : Prop :=
  ∃ f',
    update user_id topic score total now f = (Raise ZeroDivisionError, f')
    ∧ default ∅ f' = default ∅ f.

(** ** Sample inputs *)

(** A block of seven lines whose correct-answer line stops at the colon. *)
Definition text_empty_correct : string :=
  join nl ["Q1: What is 2+2?"; "A) 3"; "B) 4"; "C) 5"; "D) 6"; "Correct:";
           "Explanation: sum"].

(** A block of six lines with a single option and the label E. *)
Definition text_label_not_option : string :=
  join nl ["Q1: What is 2+2?"; "A) 4"; "It is even."; "It is positive.";
           "Correct: E"; "Explanation: sum"].

(** The question the parser returns for it. *)
Definition question_label_not_option : QuizQuestion :=
  {| question := "What is 2+2?"; options := {[ "A" := "4" ]};
     correct := "E"; explanation := Some "sum" |}.

(** A question whose label is empty, as a caller can build it. *)
Definition question_empty_label : QuizQuestion :=
  {| question := "Is 4 even?";
     options := {[ "A" := "yes"; "B" := "no" ]};
     correct := ""; explanation := Some "4 = 2 * 2" |}.



(** One question line, two option lines, one correct-answer line. *)
Definition text_four_lines : string :=
  join nl ["Q1: Is 4 even?"; "A) yes"; "B) no"; "Correct: A"].

(** Two blocks: four options with an explanation; two options padded to six
    lines by remarks. *)
Definition text_two_blocks : string :=
  join nl ["Q1: What is 2+2?"; "A) 3"; "B) 4"; "C) 5"; "D) 6"; "Correct: b";
           "Explanation: sum"; "---";
           "Q2: Is 4 even?"; "A) yes"; "B) no"; "Correct: A";
           "Explanation: 4 = 2 * 2"; "(easy)"].


Definition record_with (p : float) : QuizRecord :=
  {| topic := "t"; Storage.score := 0; Storage.total := 1;
     Storage.percentage := p; timestamp := "" |}.

(** The history of the first scenario of the difficulty policy. *)
Definition history_90_95_88 : list QuizRecord :=
  [record_with 90; record_with 95; record_with 88].

(** Four copies of a question whose label is E, three of them answered
    (in either case), the last one not. *)
Definition four_questions : list QuizQuestion :=
  [question_label_not_option; question_label_not_option;
   question_label_not_option; question_label_not_option].

Definition three_answers : gmap Z string :=
  {[ 0%Z := "E"; 1%Z := "e"; 2%Z := "E" ]}.

(** ** Further notions: the parser *)

(** The question a block contributes to the result, if any. *)
Definition block_question (block : string) : option QuizQuestion :=
  match parse_block block with
  | Ok (Some q) => Some q
  | _ => None
  end.

(** The labels an option line can carry. *)
Definition option_labels : gset string := {[ "A"; "B"; "C"; "D" ]}.

(** The shape of a parsed question beyond the final test: option keys among
    A to D, an upper-case label, and an explanation that is present. *)
Definition well_shaped (q : QuizQuestion) : Prop :=
  dom (options q) ⊆ option_labels
  ∧ (size (options q) ≤ 4)%nat
  ∧ upper (correct q) = correct q
  ∧ is_Some (explanation q).

(** An option line whose key is [k], and the value of an option line. *)
Definition is_key_line (k line : string) : bool :=
  is_option_line line && bool_decide (option_key line = k).

Definition option_value (line : string) : string :=
  strip (slice_from 2 line).

(** The value of the last option line with key [k], if there is one. *)
Definition last_option (lines : list string) (k : string) : option string :=
  option_value <$> last (List.filter (is_key_line k) lines).

(** The text of the last explanation line, or [d]. *)
Definition last_explanation (lines : list string) (d : option string)
  : option string :=
  match last (List.filter is_explanation_line lines) with
  | Some l => Some (text_after_colon l)
  | None => d
  end.

(** The body of the first question line, or the empty string. *)
Definition first_question (lines : list string) : string :=
  match List.find is_question_line lines with
  | Some l => question_body l
  | None => ""
  end.

(** A block on which the parser raises: at least six lines, one of them a
    correct-answer line whose correct-answer text (between its first colon
    and the next) is empty. *)
Definition raising_block (block : string) : Prop :=
  (6 ≤ length (block_lines block))%nat ∧ correct_lines_filled block = false.

(** What the second loop keeps: keys among the labels, an upper-case label,
    an explanation that is set. *)
Definition shape_kept (q : QuizQuestion) : Prop :=
  dom (options q) ⊆ option_labels
  ∧ upper (correct q) = correct q
  ∧ is_Some (explanation q).

(** The two questions of [text_two_blocks]. *)
Definition questions_two_blocks : list QuizQuestion :=
  [ {| question := "What is 2+2?";
       options := {[ "A" := "3"; "B" := "4"; "C" := "5"; "D" := "6" ]};
       correct := "B"; explanation := Some "sum" |};
    {| question := "Is 4 even?";
       options := {[ "A" := "yes"; "B" := "no" ]};
       correct := "A"; explanation := Some "4 = 2 * 2" |} ].

(** A block in which the option A, the label and the explanation each occur
    twice, and two lines start with Q. *)
Definition block_repeated_lines : string :=
  join nl ["Q1: first"; "Q2: second"; "A) old"; "B) other"; "A) new";
           "Correct: a"; "Correct: b"; "Explanation: one";
           "Explanation: two"].

Definition question_repeated_lines : QuizQuestion :=
  {| question := "first";
     options := {[ "A" := "new"; "B" := "other" ]};
     correct := "B"; explanation := Some "two" |}.

(** ** Further notions: the evaluator *)

(** The number of results marked correct. *)
Definition count_correct (rs : list QuestionResult) : Z :=
  Z.of_nat (length (List.filter is_correct rs)).

(** The answer graded for index [i]: the submitted one, or the empty
    string. *)
Definition answer_at (user_answers : gmap Z string) (i : nat) : string :=
  default "" (user_answers !! Z.of_nat i).

(** [three_answers] with two keys that index no question. *)
Definition three_answers_and_more : gmap Z string :=
  <[ (-1)%Z := "E" ]> (<[ 9%Z := "x" ]> three_answers).

(** ** Further notions: the progress store *)

(** The records of the file: the empty mapping while it does not exist. *)
Definition records (f : file) : gmap string UserProgress := default ∅ f.

(** The progress an update stores, from the progress loaded and the new
    record: the record appended, the topic added if new, and the difficulty
    recomputed. *)
Definition updated (old : UserProgress) (r : QuizRecord) : UserProgress :=
  let p := tools.add_topic (tools.append_score old r) (topic r) in
  tools.set_difficulty
    p (tier_of_window (window config.RECENT_SCORES_COUNT (quiz_scores p))).

(** A file with one user who has studied two topics. *)
Definition file_alice : file :=
  Some {[ "alice" :=
            {| topics_studied := ["sets"; "maps"];
               quiz_scores := [record_with 90];
               current_difficulty := "advanced"; total_time := 0 |} ]}.

(** The progress and the file an update of one out of two on a topic
    already studied leaves from [file_alice]. *)
Definition progress_alice_maps : UserProgress :=
  {| topics_studied := ["sets"; "maps"];
     quiz_scores :=
       [ record_with 90;
         {| topic := "maps"; Storage.score := 1; Storage.total := 2;
            Storage.percentage := 50; timestamp := "t0" |} ];
     current_difficulty := "intermediate"; total_time := 0 |}.

Definition file_alice_maps : file :=
  Some {[ "alice" := progress_alice_maps ]}.

(** ** Further notions: recommendations *)

(** The suggestion for a mean percentage, by the bands 80 and 60. *)
Definition suggestion_band (m : float) : string :=
  if float_ge_int m 80 then "Great progress! Try more advanced topics."
  else if float_ge_int m 60 then "Good work! Keep practising to improve."
  else "Review fundamentals and try easier topics.".

(** The recommendations for a progress record; [round1] is [round(x, 1)]. *)
Definition recommended (round1 : float → float) (p : UserProgress)
  : tools.Recommendations :=
  {| tools.difficulty := current_difficulty p;
     tools.topics_completed := Z.of_nat (length (topics_studied p));
     tools.average_score :=
       match quiz_scores p with
       | [] => Int 0
       | _ :: _ =>
           Float (round1 (mean (map Storage.percentage (quiz_scores p))))
       end;
     tools.suggestion :=
       match quiz_scores p with
       | [] => "Start your learning journey!"
       | _ :: _ =>
           suggestion_band (mean (map Storage.percentage (quiz_scores p)))
       end |}.

(** A rounding function for the examples: no rounding at all. *)
Definition no_rounding (x : float) : float := x.

(** ** Properties *)

(** *** The scenarios of the specification, run on the embedding *)

Example split_on_separator :
  split "a---b----c" "---" = ["a"; "b"; "-c"]
  ∧ split_max "Q1: a: b" ":" 1 = ["Q1"; " a: b"]
  ∧ split "" "---" = [""].
Proof. repeat split; reflexivity. Qed.

Example strip_and_upper :
  strip ("  a b " +:+ nl) = "a b" ∧ upper "aZ{1" = "AZ{1".
Proof. split; reflexivity. Qed.

Example list_slice_from_negative :
  list_slice_from (-3) [1; 2; 3; 4; 5]%nat = [3; 4; 5]%nat
  ∧ list_slice_from (-3) [1; 2]%nat = [1; 2]%nat
  ∧ list_slice_from 0 [1; 2]%nat = [1; 2]%nat.
Proof. repeat split; reflexivity. Qed.

Example difficulty_scenarios :
  tools.calculate_difficulty history_90_95_88 3 = Ok "advanced"
  ∧ tools.calculate_difficulty [record_with 50] 3 = Ok "beginner"
  ∧ tools.calculate_difficulty [] 3 = Ok "beginner"
  ∧ tools.calculate_difficulty [record_with 75] 3 = Ok "intermediate".
Proof. repeat split; vm_compute; reflexivity. Qed.

Example evaluate_three_of_four :
  ∃ r, evaluate_quiz four_questions three_answers = Ok r
       ∧ QuizAgent.score r = 3%Z ∧ QuizAgent.total r = 4%Z
       ∧ QuizAgent.percentage r = Float 75
       ∧ map is_correct (results r) = [true; true; true; false].
Proof. eexists. split; [vm_compute; reflexivity|]. repeat split. Qed.

Example parse_two_blocks :
  ∃ q1 q2, _parse_quiz text_two_blocks = Ok [q1; q2]
           ∧ question q1 = "What is 2+2?" ∧ correct q1 = "B"
           ∧ size (options q1) = 4%nat
           ∧ question q2 = "Is 4 even?" ∧ correct q2 = "A"
           ∧ explanation q2 = Some "4 = 2 * 2".
Proof.
  eexists _, _. split; [vm_compute; reflexivity|].
  repeat split; vm_compute; reflexivity.
Qed.

(** *** Grading an empty quiz *)

(** C7. Evaluating a quiz with no question returns score 0, total 0 and
    percentage 0, with no result, whatever the answers: the division by the
    number of questions is not reached. *)
Theorem evaluate_quiz_empty (user_answers : gmap Z string) :
  evaluate_quiz [] user_answers
  = Ok {| QuizAgent.score := 0; QuizAgent.total := 0;
          QuizAgent.percentage := Int 0; results := [] |}.
Proof. reflexivity. Qed.

(** *** The parser on an empty correct-answer line *)

(** C2 (failing input). On a block of seven lines whose correct-answer line
    has nothing after the colon, [correct_text[0]] raises [IndexError] and
    the parser returns no sequence at all. *)
Theorem parse_quiz_empty_correct_raises :
  _parse_quiz text_empty_correct = Raise IndexError.
Proof. vm_compute. reflexivity. Qed.

(** *** The progress store *)

Lemma load_user_progress_eq (user_id : string) (f : file) :
  tools.load_user_progress user_id f
  = (Ok (stored f user_id), Some (default ∅ f)).
Proof. destruct f; reflexivity. Qed.

Lemma save_user_progress_eq (user_id : string) (p : UserProgress) (f : file) :
  tools.save_user_progress user_id p f
  = (Ok tt, Some (<[user_id := p]> (default ∅ f))).
Proof. destruct f; reflexivity. Qed.

Lemma stored_save_eq (user_id : string) (p : UserProgress) (f : file) :
  stored (Some (<[user_id := p]> (default ∅ f))) user_id = p.
Proof. unfold stored. simpl. by rewrite lookup_insert_eq. Qed.

Lemma stored_save_ne (user_id other : string) (p : UserProgress) (f : file) :
  other ≠ user_id →
  stored (Some (<[user_id := p]> (default ∅ f))) other = stored f other.
Proof. intros Hne. unfold stored. simpl. by rewrite lookup_insert_ne. Qed.

(** C9. Whatever the file holds, [reset_progress] for a user followed by a
    load of that user returns the default record. *)
Theorem reset_then_load (user_id : string) (f : file) :
  ∃ f1 f2,
    PersonalisationEngine.reset_progress user_id f = (Ok tt, f1)
    ∧ tools.load_user_progress user_id f1
      = (Ok {| topics_studied := []; quiz_scores := [];
               current_difficulty := "beginner"; total_time := 0 |}, f2)
    ∧ PersonalisationEngine.load_progress user_id f1
      = (Ok {| topics_studied := []; quiz_scores := [];
               current_difficulty := "beginner"; total_time := 0 |}, f2).
Proof.
  unfold PersonalisationEngine.reset_progress,
    PersonalisationEngine.save_progress, PersonalisationEngine.load_progress.
  rewrite save_user_progress_eq.
  eexists _, _. split; [reflexivity|].
  rewrite load_user_progress_eq, stored_save_eq. split; reflexivity.
Qed.

(** C10. Saving the progress of one user leaves the record loaded for any
    other user as it was. *)
Theorem save_other_user_unchanged
        (user_id other : string) (p : UserProgress) (f : file) :
  other ≠ user_id →
  ∃ f1,
    tools.save_user_progress user_id p f = (Ok tt, f1)
    ∧ fst (tools.load_user_progress other f1)
      = fst (tools.load_user_progress other f).
Proof.
  intros Hne. rewrite save_user_progress_eq. eexists. split; [reflexivity|].
  rewrite !load_user_progress_eq. simpl. by rewrite stored_save_ne.
Qed.

Lemma save_other_user_unchanged_witness :
  "bob" ≠ "alice"
  ∧ ∃ f1,
      tools.save_user_progress "alice" tools.default_progress
        (Some {[ "bob" := tools.set_difficulty tools.default_progress
                                               "advanced" ]})
      = (Ok tt, f1)
      ∧ fst (tools.load_user_progress "bob" f1)
        = fst (tools.load_user_progress "bob"
                 (Some {[ "bob" := tools.set_difficulty tools.default_progress
                                                        "advanced" ]})).
Proof.
  split; [discriminate|].
  apply (save_other_user_unchanged "alice" "bob"). discriminate.
Defined.

(** *** The difficulty policy *)

Lemma list_slice_from_last {A} (w : Z) (xs : list A) :
  (1 ≤ w)%Z →
  list_slice_from (- w) xs
  = last_entries (Z.to_nat (Z.min w (Z.of_nat (length xs)))) xs.
Proof.
  intros Hw. unfold list_slice_from, last_entries.
  destruct (Z.ltb_spec (- w) 0) as [_|?]; [|lia].
  f_equal. lia.
Qed.

Lemma last_entries_nonempty {A} (n : nat) (xs : list A) :
  (1 ≤ n)%nat → xs ≠ [] → last_entries n xs ≠ [].
Proof.
  intros Hn Hxs Hnil. unfold last_entries in Hnil.
  apply (f_equal (@length A)) in Hnil. rewrite length_skipn in Hnil.
  destruct xs as [|x xs]; [done|]. simpl in Hnil. lia.
Qed.

Lemma float_div_int_length (x : float) {A} (xs : list A) :
  xs ≠ [] →
  float_div_int x (Z.of_nat (length xs))
  = Ok (PrimFloat.div x (float_of_int (Z.of_nat (length xs)))).
Proof.
  intros Hxs. unfold float_div_int.
  destruct (Z.eqb_spec (Z.of_nat (length xs)) 0) as [H0|_]; [|done].
  destruct xs; [done|]. simpl in H0. lia.
Qed.

(** For a window of at least one record, the code computes the tier of the
    last [min(w, len(H))] records. *)
Lemma calculate_difficulty_eq (H : list QuizRecord) (w : Z) :
  (1 ≤ w)%Z →
  tools.calculate_difficulty H w = Ok (tier_of_window (window w H)).
Proof.
  intros Hw. unfold tools.calculate_difficulty, window.
  destruct H as [|r H]; [reflexivity|].
  rewrite list_slice_from_last by done.
  set (recent := last_entries _ _).
  assert (Hne : recent ≠ []).
  { apply last_entries_nonempty; [simpl length; lia|done]. }
  assert (Hlen : length (map Storage.percentage recent) = length recent)
    by apply length_map.
  rewrite float_div_int_length by done. simpl.
  unfold tier_of_window, mean. rewrite Hlen.
  destruct recent as [|r' recent']; [done|].
  unfold config.ADVANCED_THRESHOLD, config.INTERMEDIATE_THRESHOLD.
  repeat case_match; reflexivity.
Qed.

(** *** Updating the quiz score *)

Lemma add_topic_quiz_scores (p : UserProgress) (topic : string) :
  quiz_scores (tools.add_topic p topic) = quiz_scores p.
Proof. unfold tools.add_topic. by case_bool_decide. Qed.

Lemma new_record_zero (topic : string) (score : Z) (now : string) :
  tools.new_record topic score 0 now = Raise ZeroDivisionError.
Proof. reflexivity. Qed.

Lemma new_record_nonzero (topic : string) (score total : Z) (now : string) :
  total ≠ 0%Z →
  ∃ r, tools.new_record topic score total now = Ok r
       ∧ Storage.topic r = topic ∧ Storage.score r = score
       ∧ Storage.total r = total ∧ timestamp r = now.
Proof.
  intros Hne. unfold tools.new_record, int_truediv.
  destruct (Z.eqb_spec total 0) as [?|_]; [done|].
  simpl. eexists. split; [reflexivity|]. done.
Qed.

(** The two update functions are the same function of the file. *)
Lemma engine_update_quiz_score_eq
      (user_id topic : string) (score total : Z) (now : string) (f : file) :
  PersonalisationEngine.update_quiz_score user_id topic score total now f
  = tools.update_quiz_score user_id topic score total now f.
Proof. reflexivity. Qed.

Lemma update_quiz_score_zero
      (user_id topic : string) (score : Z) (now : string) (f : file) :
  tools.update_quiz_score user_id topic score 0 now f
  = (Raise ZeroDivisionError, Some (default ∅ f)).
Proof.
  unfold tools.update_quiz_score, Storage.bind.
  rewrite load_user_progress_eq. reflexivity.
Qed.

Lemma update_quiz_score_nonzero
      (user_id topic : string) (score total : Z) (now : string) (f : file) :
  total ≠ 0%Z →
  ∃ r p,
    tools.new_record topic score total now = Ok r
    ∧ quiz_scores p = quiz_scores (stored f user_id) ++ [r]
    ∧ current_difficulty p
      = tier_of_window (window 3 (quiz_scores p))
    ∧ tools.update_quiz_score user_id topic score total now f
      = (Ok p, Some (<[user_id := p]> (default ∅ f))).
Proof.
  intros Hne.
  destruct (new_record_nonzero topic score total now Hne) as (r & Hr & _).
  unfold tools.update_quiz_score, Storage.bind.
  rewrite load_user_progress_eq, Hr. unfold lift at 1.
  set (p1 := tools.add_topic (tools.append_score (stored f user_id) r) topic).
  assert (Hq : quiz_scores p1 = quiz_scores (stored f user_id) ++ [r]).
  { unfold p1. by rewrite add_topic_quiz_scores. }
  rewrite calculate_difficulty_eq by lia. unfold lift.
  rewrite save_user_progress_eq. simpl.
  exists r, (tools.set_difficulty p1 (tier_of_window (window 3 (quiz_scores p1)))).
  split; [done|]. split; [done|]. split; [done|]. reflexivity.
Qed.




(** C3 (counterexample). An update with total -2 is not rejected: it
    returns, and the record with the negative total is in the history the
    file then holds for the user. *)
Lemma update_quiz_score_negative_total_persisted :
  ∃ p f' r,
    tools.update_quiz_score "alice" "sets" 1 (-2) "2024-01-01T10:00:00" None
    = (Ok p, f')
    ∧ r ∈ quiz_scores (stored f' "alice")
    ∧ (Storage.total r ≤ 0)%Z.
Proof.
  destruct (update_quiz_score_nonzero
              "alice" "sets" 1 (-2) "2024-01-01T10:00:00" None)
    as (r & p & Hr & Hq & _ & Hu); [discriminate|].
  exists p, (Some (<[("alice" : string) := p]> ∅)), r.
  split; [exact Hu|]. split.
  - change (∅ : gmap string UserProgress) with (default ∅ (None : file)).
    rewrite stored_save_eq. rewrite Hq. apply elem_of_app. right.
    apply list_elem_of_singleton. reflexivity.
  - vm_compute in Hr. injection Hr as <-. simpl. lia.
Qed.

(** C3 (amended). An update whose total is 0 is rejected by the division
    error raised while the percentage of the new record is computed, before
    anything is saved: the file holds the records it held before.  This
    holds for the function of [tools.py] and for the method of the
    engine. *)
Theorem update_quiz_score_zero_total_rejected
        (user_id topic : string) (score total : Z) (now : string) (f : file) :
  total = 0%Z →
  update_rejected tools.update_quiz_score user_id topic score total now f
  ∧ update_rejected PersonalisationEngine.update_quiz_score
                    user_id topic score total now f.
Proof.
  intros ->.
  assert (Hr : update_rejected tools.update_quiz_score
                 user_id topic score 0 now f).
  { exists (Some (default ∅ f)). by rewrite update_quiz_score_zero. }
  split; [done|].
  unfold update_rejected.
  setoid_rewrite engine_update_quiz_score_eq. exact Hr.
Qed.

Lemma update_quiz_score_zero_total_rejected_witness :
  0%Z = 0%Z
  ∧ update_rejected tools.update_quiz_score
                    "alice" "sets" 0 0 "2024-01-01T10:00:00" None
  ∧ update_rejected PersonalisationEngine.update_quiz_score
                    "alice" "sets" 0 0 "2024-01-01T10:00:00" None.
Proof.
  split; [reflexivity|].
  apply (update_quiz_score_zero_total_rejected
           "alice" "sets" 0 0 "2024-01-01T10:00:00" None).
  reflexivity.
Defined.

(** C4 (counterexample). With a window of 0 the result is not a function of
    the last [min(0, len(H))] records: two histories with the same (empty)
    window get different tiers, because [H[-0:]] is the whole history. *)
Lemma calculate_difficulty_window_zero :
  window 0 [record_with 90] = window 0 [record_with 50]
  ∧ tools.calculate_difficulty [record_with 90] 0 = Ok "advanced"
  ∧ tools.calculate_difficulty [record_with 50] 0 = Ok "beginner".
Proof. split; [reflexivity|]. split; vm_compute; reflexivity. Qed.

(** C4 (amended). For every history and every window of at least 1, the
    policy returns [beginner] on an empty history and otherwise the tier of
    the mean percentage of the last [min(w, len(H))] records (advanced from
    85, intermediate from 70, beginner below); the result is the same for
    any history with the same last records. *)
Theorem calculate_difficulty_window (H : list QuizRecord) (w : Z) :
  (1 ≤ w)%Z →
  tools.calculate_difficulty [] w = Ok "beginner"
  ∧ tools.calculate_difficulty H w = Ok (tier_of_window (window w H))
  ∧ ∀ H', window w H' = window w H →
          tools.calculate_difficulty H' w = tools.calculate_difficulty H w.
Proof.
  intros Hw. split; [reflexivity|]. split.
  - by apply calculate_difficulty_eq.
  - intros H' Heq. rewrite !calculate_difficulty_eq by done. by rewrite Heq.
Qed.

Lemma calculate_difficulty_window_witness :
  (1 ≤ 3)%Z
  ∧ tools.calculate_difficulty [] 3 = Ok "beginner"
  ∧ tools.calculate_difficulty
      [record_with 10; record_with 90; record_with 95; record_with 88] 3
    = Ok (tier_of_window
            (window 3 [record_with 10; record_with 90; record_with 95;
                       record_with 88]))
  ∧ ∀ H', window 3 H'
          = window 3 [record_with 10; record_with 90; record_with 95;
                      record_with 88] →
          tools.calculate_difficulty H' 3
          = tools.calculate_difficulty
              [record_with 10; record_with 90; record_with 95;
               record_with 88] 3.
Proof.
  split; [lia|].
  apply (calculate_difficulty_window
           [record_with 10; record_with 90; record_with 95; record_with 88] 3).
  lia.
Defined.

(** *** What the parser returns *)

Lemma for_each_invariant {A S} (P : S → Prop) (body : S → A → Res S)
      (xs : list A) (acc r : S) :
  (∀ s x s', P s → body s x = Ok s' → P s') →
  P acc → for_each body xs acc = Ok r → P r.
Proof.
  intros Hstep. revert acc.
  induction xs as [|x xs IH]; intros acc Hacc Hrun; simpl in Hrun.
  - by injection Hrun as <-.
  - destruct (body acc x) as [s'|e] eqn:Hb; [|done]. eauto.
Qed.

Lemma truthy_nonempty (s : string) : truthy s = true → s ≠ "".
Proof. by destruct s. Qed.

Lemma complete_populated (q : QuizQuestion) :
  complete q = true → populated q.
Proof.
  unfold complete, has_options, populated. intros Hc.
  apply andb_true_iff in Hc as [Hc Hcorrect].
  apply andb_true_iff in Hc as [Hquestion Hoptions].
  split; [by apply truthy_nonempty|]. split; [|by apply truthy_nonempty].
  apply negb_true_iff, bool_decide_eq_false in Hoptions.
  apply map_size_non_empty_iff in Hoptions. lia.
Qed.

Lemma parse_block_populated (block : string) (q : QuizQuestion) :
  parse_block block = Ok (Some q) → populated q.
Proof.
  unfold parse_block. intros Hp.
  destruct (negb (truthy (strip block))); [done|].
  destruct (length (block_lines block) <? 6)%nat; [done|].
  destruct (parse_question _ _) as [q1|] eqn:Hq1; [|done]. simpl in Hp.
  destruct (for_each _ _ _) as [q2|] eqn:Hq2; [|done]. simpl in Hp.
  destruct (complete q2) eqn:Hc; [|done]. injection Hp as <-.
  by apply complete_populated.
Qed.

Lemma parse_blocks_populated (acc qs : list QuizQuestion)
      (blocks : list string) :
  Forall populated acc → parse_blocks acc blocks = Ok qs →
  Forall populated qs.
Proof.
  unfold parse_blocks.
  apply (for_each_invariant (Forall populated)).
  intros s block s' Hs Hb.
  destruct (parse_block block) as [[q|]|] eqn:Hp; simpl in Hb; try done.
  - injection Hb as <-. apply Forall_app. split; [done|].
    apply Forall_singleton. by eapply parse_block_populated.
  - by injection Hb as <-.
Qed.

(** C1 (counterexample). The parser returns a question whose label E is
    not a key of its options and which has a single option. *)
Lemma parse_quiz_keeps_malformed_question :
  _parse_quiz text_label_not_option = Ok [question_label_not_option]
  ∧ options question_label_not_option !! correct question_label_not_option
    = None
  ∧ size (options question_label_not_option) = 1%nat
  ∧ ¬ QuizQuestion_invariant question_label_not_option.
Proof.
  split; [vm_compute; reflexivity|].
  split; [vm_compute; reflexivity|].
  split; [vm_compute; reflexivity|].
  intros ([v Hv] & _). vm_compute in Hv. discriminate.
Qed.

(** C1 (amended). Every question in the sequence the parser returns has a
    non-empty question text, at least one option and a non-empty [correct]
    label; a block whose candidate fails one of these is left out. *)
Theorem parse_quiz_populated (quiz_text : string) (qs : list QuizQuestion) :
  _parse_quiz quiz_text = Ok qs → Forall populated qs.
Proof. unfold _parse_quiz. by apply parse_blocks_populated. Qed.

Lemma parse_quiz_populated_witness :
  _parse_quiz text_label_not_option = Ok [question_label_not_option]
  ∧ Forall populated [question_label_not_option].
Proof.
  assert (H : _parse_quiz text_label_not_option
              = Ok [question_label_not_option])
    by (vm_compute; reflexivity).
  split; [exact H|].
  exact (parse_quiz_populated text_label_not_option
                              [question_label_not_option] H).
Defined.

(** *** Grading *)

Lemma upper_char_nat (c : ascii) :
  nat_of_ascii (upper_char c)
  = if (97 <=? nat_of_ascii c)%nat && (nat_of_ascii c <=? 122)%nat
    then (nat_of_ascii c - 32)%nat else nat_of_ascii c.
Proof.
  unfold upper_char. pose proof (nat_ascii_bounded c) as Hb.
  destruct (_ && _); [|done].
  apply nat_ascii_embedding. lia.
Qed.

Lemma nat_of_ascii_inj (a b : ascii) :
  nat_of_ascii a = nat_of_ascii b → a = b.
Proof.
  intros H. rewrite <- (ascii_nat_embedding a), <- (ascii_nat_embedding b).
  by rewrite H.
Qed.

Lemma upper_char_eq_iff (a b : ascii) :
  upper_char a = upper_char b ↔ same_letter a b = true.
Proof.
  split.
  - intros H. apply (f_equal nat_of_ascii) in H.
    rewrite !upper_char_nat in H. unfold same_letter.
    destruct (Nat.leb_spec 97 (nat_of_ascii a)),
             (Nat.leb_spec (nat_of_ascii a) 122),
             (Nat.leb_spec 97 (nat_of_ascii b)),
             (Nat.leb_spec (nat_of_ascii b) 122);
      simpl in *;
      repeat match goal with
             | |- context [Nat.eqb ?x ?y] => destruct (Nat.eqb_spec x y)
             end; simpl; try done; lia.
  - intros H. apply nat_of_ascii_inj. rewrite !upper_char_nat.
    unfold same_letter in H.
    destruct (Nat.leb_spec 97 (nat_of_ascii a)),
             (Nat.leb_spec (nat_of_ascii a) 122),
             (Nat.leb_spec 97 (nat_of_ascii b)),
             (Nat.leb_spec (nat_of_ascii b) 122);
      simpl in *;
      repeat match type of H with
             | context [Nat.eqb ?x ?y] => destruct (Nat.eqb_spec x y)
             end; simpl in *; try done; lia.
Qed.

Lemma upper_eq_iff (s t : string) :
  upper s = upper t ↔ caseless_eq s t = true.
Proof.
  revert t. induction s as [|a s IH]; intros [|b t]; simpl; try done.
  rewrite andb_true_iff, <- IH, <- upper_char_eq_iff.
  split; [by intros [= -> ->]|by intros [-> ->]].
Qed.

Lemma upper_nonempty (s : string) : s ≠ "" → upper "" ≠ upper s.
Proof. by destruct s. Qed.

Lemma evaluate_loop_app (user_answers : gmap Z string) (qs : list QuizQuestion) :
  ∀ (i : Z) (rs : list QuestionResult) (score : Z),
    fst (evaluate_loop user_answers i qs rs score)
    = rs ++ fst (evaluate_loop user_answers i qs [] 0%Z).
Proof.
  induction qs as [|q qs IH]; intros i rs score; simpl.
  - by rewrite app_nil_r.
  - rewrite IH. rewrite (IH _ [_]). by rewrite <- app_assoc.
Qed.

Lemma evaluate_loop_lookup (user_answers : gmap Z string)
      (qs : list QuizQuestion) :
  ∀ (i : Z) (k : nat) (q : QuizQuestion),
    qs !! k = Some q →
    ∃ res,
      fst (evaluate_loop user_answers i qs [] 0%Z) !! k = Some res
      ∧ user_answer res = default "" (user_answers !! (i + Z.of_nat k)%Z)
      ∧ is_correct res
        = bool_decide (upper (user_answer res) = upper (correct q)).
Proof.
  induction qs as [|q0 qs IH]; intros i k q Hk; [done|].
  simpl. rewrite evaluate_loop_app.
  destruct k as [|k]; simpl in *.
  - injection Hk as ->. eexists. split; [reflexivity|]. simpl.
    by rewrite Z.add_0_r.
  - destruct (IH (i + 1)%Z k q Hk) as (res & Hres & Hans & Hcor).
    exists res. split; [done|]. split; [|done].
    rewrite Hans. do 2 f_equal. lia.
Qed.

Lemma evaluate_quiz_returns (qs : list QuizQuestion)
      (user_answers : gmap Z string) :
  ∃ r, evaluate_quiz qs user_answers = Ok r
       ∧ results r = fst (evaluate_loop user_answers 0 qs [] 0%Z)
       ∧ QuizAgent.total r = Z.of_nat (length qs).
Proof.
  unfold evaluate_quiz.
  destruct (evaluate_loop user_answers 0 qs [] 0%Z) as [rs sc] eqn:Hl.
  destruct qs as [|q qs].
  - simpl. eexists. split; [reflexivity|]. simpl in *. by injection Hl as <- <-.
  - unfold int_truediv.
    destruct (Z.eqb_spec (Z.of_nat (length (q :: qs))) 0) as [H0|_];
      [simpl in H0; lia|].
    simpl. eexists. split; [reflexivity|]. done.
Qed.

(** C5 (counterexample). For a question whose label is empty, an index
    with no submitted answer is graded correct: the answer defaults to the
    empty string, which equals the label, and the score is 1 out of 1. *)
Lemma evaluate_quiz_missing_answer_marked_correct :
  ∃ r res,
    evaluate_quiz [question_empty_label] ∅ = Ok r
    ∧ (∅ : gmap Z string) !! 0%Z = None
    ∧ results r !! 0%nat = Some res
    ∧ is_correct res = true
    ∧ QuizAgent.score r = 1%Z
    ∧ QuizAgent.total r = 1%Z.
Proof.
  eexists _, _. split; [vm_compute; reflexivity|].
  repeat split; reflexivity.
Qed.

(** C5 (amended). The evaluator returns for every question list and answer
    map.  At the index of a question, a submitted answer is graded as it
    is: when it and the question's label are ASCII strings, it is marked
    correct exactly when it equals the label up to case, and incorrect
    otherwise.  An index with no submitted answer is graded as the empty
    string, without raising, and is marked incorrect whenever the
    question's label is not empty. *)
Theorem evaluate_quiz_marks (questions : list QuizQuestion)
        (user_answers : gmap Z string) (i : nat) (q : QuizQuestion) :
  questions !! i = Some q →
  ∃ r res,
    evaluate_quiz questions user_answers = Ok r
    ∧ results r !! i = Some res
    ∧ match user_answers !! Z.of_nat i with
      | Some a =>
          user_answer res = a
          ∧ (is_ascii a = true → is_ascii (correct q) = true →
             (is_correct res = true ↔ caseless_eq a (correct q) = true))
      | None =>
          user_answer res = ""
          ∧ (correct q ≠ "" → is_correct res = false)
      end.
Proof.
  intros Hi.
  destruct (evaluate_quiz_returns questions user_answers) as (r & Hr & Hrs & _).
  destruct (evaluate_loop_lookup user_answers questions 0 i q Hi)
    as (res & Hres & Hans & Hcor).
  exists r, res. split; [done|]. split; [by rewrite Hrs|].
  rewrite Z.add_0_l in Hans.
  destruct (user_answers !! Z.of_nat i) as [a|]; simpl in Hans;
    rewrite Hcor, Hans; (split; [done|]).
  - intros _ _. by rewrite bool_decide_eq_true, upper_eq_iff.
  - intros Hq. apply bool_decide_eq_false. by apply upper_nonempty.
Qed.

Lemma evaluate_quiz_marks_witness :
  [question_label_not_option; question_label_not_option] !! 1%nat
  = Some question_label_not_option
  ∧ ∃ r res,
      evaluate_quiz [question_label_not_option; question_label_not_option]
                    {[ 1%Z := "e" ]} = Ok r
      ∧ results r !! 1%nat = Some res
      ∧ match ({[ 1%Z := "e" ]} : gmap Z string) !! Z.of_nat 1 with
        | Some a =>
            user_answer res = a
            ∧ (is_ascii a = true →
               is_ascii (correct question_label_not_option) = true →
               (is_correct res = true
                ↔ caseless_eq a (correct question_label_not_option) = true))
        | None =>
            user_answer res = ""
            ∧ (correct question_label_not_option ≠ "" →
               is_correct res = false)
        end.
Proof.
  split; [reflexivity|].
  apply (evaluate_quiz_marks
           [question_label_not_option; question_label_not_option]
           {[ 1%Z := "e" ]} 1 question_label_not_option).
  reflexivity.
Defined.

(** *** Blocks the parser includes *)

Lemma prefix_app (p s : string) :
  String.prefix p s = true → ∃ t, s = p +:+ t.
Proof.
  revert s. induction p as [|a p IH]; intros s H.
  - by exists s.
  - destruct s as [|b s]; simpl in H; [done|].
    destruct (ascii_dec a b) as [->|]; [|done].
    destruct (IH s H) as [t ->]. by exists t.
Qed.

Lemma item_nth {A} (xs : list A) (i : nat) (d : A) :
  (i < length xs)%nat → item xs i = Ok (nth i xs d).
Proof. intros Hi. unfold item. by rewrite (nth_error_nth' xs d Hi). Qed.

Lemma prefix_empty (s : string) : String.prefix "" s = true.
Proof. by destruct s. Qed.

Lemma prefix_cons (a b : ascii) (p s : string) :
  String.prefix (String a p) (String b s)
  = if ascii_dec a b then String.prefix p s else false.
Proof. reflexivity. Qed.

Lemma contains_cons (sub : string) (c : ascii) (s : string) :
  contains sub (String c s)
  = String.prefix sub (String c s) || contains sub s.
Proof. reflexivity. Qed.

Lemma split_go_cons (sep : string) (budget : option nat) (cur : string)
      (c : ascii) (s : string) :
  split_go sep budget 0 cur (String c s)
  = match budget with
    | Some O => [cur +:+ String c s]
    | _ =>
        if String.prefix sep (String c s)
        then cur :: split_go sep (pred <$> budget)
                             (String.length sep - 1) EmptyString s
        else split_go sep budget 0 (cur +:+ String c EmptyString) s
    end.
Proof. reflexivity. Qed.

Lemma split_go_length (s sep : string) :
  ∀ budget skip cur, (1 ≤ length (split_go sep budget skip cur s))%nat.
Proof.
  induction s as [|c s IH]; intros budget skip cur; [simpl; lia|].
  destruct skip as [|k]; [|apply IH].
  rewrite split_go_cons.
  destruct budget as [[|n]|]; [simpl; lia|..];
    destruct (String.prefix sep (String c s)); simpl; try apply IH; lia.
Qed.

Lemma split_go_colon_length (s : string) :
  ∀ budget cur,
    budget ≠ Some 0%nat → contains ":" s = true →
    (2 ≤ length (split_go ":" budget 0 cur s))%nat.
Proof.
  induction s as [|c s IH]; intros budget cur Hb Hc; [done|].
  rewrite contains_cons in Hc. rewrite split_go_cons.
  destruct (String.prefix ":" (String c s)) eqn:Hp.
  - destruct budget as [[|n]|]; [done|..]; simpl length;
      match goal with
      | |- context [split_go ?sep ?b ?k ?cu s] =>
          pose proof (split_go_length s sep b k cu)
      end; lia.
  - simpl in Hc. destruct budget as [[|n]|]; [done|..]; by apply IH.
Qed.

Lemma correct_line_contains (line : string) :
  is_correct_line line = true → contains ":" line = true.
Proof.
  unfold is_correct_line, startswith. intros H.
  apply prefix_app in H as [t ->]. by destruct t.
Qed.

Lemma explanation_line_contains (line : string) :
  is_explanation_line line = true → contains ":" line = true.
Proof.
  unfold is_explanation_line, startswith. intros H.
  apply prefix_app in H as [t ->]. by destruct t.
Qed.

Lemma option_line_not_correct (line : string) :
  is_option_line line = true → is_correct_line line = false.
Proof.
  destruct (is_correct_line line) eqn:H; [|done].
  unfold is_correct_line, startswith in H.
  apply prefix_app in H as [t ->]. done.
Qed.

Lemma option_line_key (line : string) :
  is_option_line line = true →
  first_char line = Ok (option_key line) ∧ option_key line ≠ "".
Proof. by destruct line. Qed.
Lemma split_max_item (line : string) :
  contains ":" line = true →
  item (split_max line ":" 1) 1 = Ok (nth 1 (split_max line ":" 1) "").
Proof.
  intros H. apply item_nth. by apply split_go_colon_length.
Qed.

Lemma split_item (line : string) :
  contains ":" line = true →
  item (split line ":") 1 = Ok (nth 1 (split line ":") "").
Proof.
  intros H. apply item_nth. by apply split_go_colon_length.
Qed.

Lemma question_text_eq (line : string) :
  question_text line = Ok (question_body line).
Proof.
  unfold question_text, question_body, text_after_colon.
  destruct (contains ":" line) eqn:H; [|done].
  by rewrite split_max_item.
Qed.

Lemma parse_question_eq (q : QuizQuestion) (lines : list string) :
  parse_question q lines
  = Ok (match List.find is_question_line lines with
        | Some line => set_question q (question_body line)
        | None => q
        end).
Proof.
  induction lines as [|line lines IH]; simpl; [done|].
  destruct (is_question_line line); [|done].
  by rewrite question_text_eq.
Qed.


Lemma parse_line_option (q : QuizQuestion) (line : string) :
  is_option_line line = true →
  parse_line q line
  = Ok (set_option q (option_key line) (strip (slice_from 2 line))).
Proof.
  intros H. unfold parse_line. rewrite H.
  by destruct (option_line_key line H) as [-> _].
Qed.

Lemma parse_line_correct (q : QuizQuestion) (line : string) :
  is_correct_line line = true → truthy (correct_text line) = true →
  parse_line q line = Ok (set_correct q (declared_letter line)).
Proof.
  intros H Ht. unfold parse_line.
  destruct (is_option_line line) eqn:Ho.
  { apply option_line_not_correct in Ho. congruence. }
  rewrite H, split_item by (by apply correct_line_contains). simpl.
  unfold declared_letter. unfold correct_text in *.
  by destruct (strip _).
Qed.

Lemma parse_line_other (q : QuizQuestion) (line : string) :
  is_option_line line = false → is_correct_line line = false →
  ∃ q', parse_line q line = Ok q'
        ∧ question q' = question q ∧ options q' = options q
        ∧ correct q' = correct q.
Proof.
  intros Ho Hc. unfold parse_line. rewrite Ho, Hc.
  destruct (is_explanation_line line) eqn:He; [|by exists q].
  rewrite split_max_item by (by apply explanation_line_contains).
  simpl. by eexists.
Qed.

Lemma last_declared_cons (line : string) (lines : list string) (d : string) :
  last_declared (line :: lines) d
  = last_declared lines
      (if is_correct_line line then declared_letter line else d).
Proof.
  unfold last_declared. simpl.
  destruct (is_correct_line line); [|done].
  rewrite last_cons. by destruct (last _).
Qed.

(** The second loop on lines it passes without raising: the question text
    is kept, option keys accumulate, and the label is that of the last
    correct-answer line. *)
Lemma parse_lines_run (lines : list string) :
  ∀ q,
    forallb line_ok lines = true →
    ∃ q',
      for_each parse_line lines q = Ok q'
      ∧ question q' = question q
      ∧ (∀ k, is_Some (options q !! k) → is_Some (options q' !! k))
      ∧ (∀ ol, ol ∈ lines → is_option_line ol = true →
               is_Some (options q' !! option_key ol))
      ∧ correct q' = last_declared lines (correct q).
Proof.
  induction lines as [|line lines IH]; intros q Hok.
  { exists q. split; [done|]. split; [done|]. split; [done|].
    split; [|done]. intros ol Hol. by apply elem_of_nil in Hol. }
  simpl in Hok. apply andb_true_iff in Hok as [Hline Hok].
  rewrite last_declared_cons. simpl.
  destruct (is_option_line line) eqn:Ho.
  - rewrite parse_line_option by done. simpl.
    rewrite (option_line_not_correct line Ho).
    destruct (IH (set_option q (option_key line)
                             (strip (slice_from 2 line))) Hok)
      as (q' & Hrun & Hq & Hkeys & Hopts & Hcor).
    exists q'. split; [done|]. split; [done|]. split; [|split; [|done]].
    + intros k Hk. apply Hkeys. simpl. rewrite lookup_insert.
      by case_decide.
    + intros ol Hol Hio. apply elem_of_cons in Hol as [->|Hol]; [|eauto].
      apply Hkeys. simpl. rewrite lookup_insert_eq. by eexists.
  - destruct (is_correct_line line) eqn:Hc.
    + unfold line_ok in Hline. rewrite Hc in Hline. simpl in Hline.
      rewrite parse_line_correct by done. simpl.
      destruct (IH (set_correct q (declared_letter line)) Hok)
        as (q' & Hrun & Hq & Hkeys & Hopts & Hcor).
      exists q'. split; [done|]. split; [done|]. split; [done|].
      split; [|done].
      intros ol Hol Hio. apply elem_of_cons in Hol as [->|Hol]; [|eauto].
      congruence.
    + destruct (parse_line_other q line Ho Hc) as (q1 & -> & Hq1 & Ho1 & Hc1).
      simpl.
      destruct (IH q1 Hok) as (q' & Hrun & Hq & Hkeys & Hopts & Hcor).
      exists q'. split; [done|]. split; [congruence|].
      split; [|split; [|congruence]].
      * intros k Hk. apply Hkeys. by rewrite Ho1.
      * intros ol Hol Hio. apply elem_of_cons in Hol as [->|Hol]; [|eauto].
        congruence.
Qed.


Lemma block_lines_blank (block : string) :
  truthy (strip block) = false → block_lines block = [].
Proof.
  unfold block_lines. destruct (strip block); [reflexivity|done].
Qed.

(** A block none of whose correct-answer lines is empty is parsed without
    an exception. *)
Lemma parse_block_returns (block : string) :
  correct_lines_filled block = true → ∃ r, parse_block block = Ok r.
Proof.
  unfold correct_lines_filled, parse_block. intros Hok.
  destruct (negb (truthy (strip block))); [by eexists|].
  destruct (length (block_lines block) <? 6)%nat; [by eexists|].
  rewrite parse_question_eq. simpl.
  match goal with
  | |- context [for_each parse_line _ ?q] =>
      destruct (parse_lines_run (block_lines block) q Hok) as (q' & -> & _)
  end.
  simpl. destruct (complete q'); by eexists.
Qed.


Lemma parse_block_short (block : string) :
  (length (block_lines block) < 6)%nat → parse_block block = Ok None.
Proof.
  intros Hlen. unfold parse_block.
  destruct (negb (truthy (strip block))); [done|].
  by destruct (Nat.ltb_spec (length (block_lines block)) 6); [|lia].
Qed.





(** ** Further properties *)

(** *** When the parser raises *)

Lemma parse_line_bad (q : QuizQuestion) (line : string) :
  line_ok line = false → parse_line q line = Raise IndexError.
Proof.
  unfold line_ok. intros Hbad.
  destruct (is_correct_line line) eqn:Hc; [|done]. simpl in Hbad.
  unfold parse_line.
  destruct (is_option_line line) eqn:Ho.
  { apply option_line_not_correct in Ho. congruence. }
  rewrite Hc, split_item by (by apply correct_line_contains). simpl.
  unfold correct_text in Hbad. by destruct (strip _).
Qed.

Lemma parse_line_good (q : QuizQuestion) (line : string) :
  line_ok line = true → ∃ q', parse_line q line = Ok q'.
Proof.
  unfold line_ok. intros Hok.
  destruct (is_option_line line) eqn:Ho.
  { rewrite parse_line_option by done. by eexists. }
  destruct (is_correct_line line) eqn:Hc.
  { rewrite parse_line_correct by done. by eexists. }
  destruct (parse_line_other q line Ho Hc) as (q' & -> & _). by eexists.
Qed.

Lemma parse_lines_raise (lines : list string) :
  ∀ q, forallb line_ok lines = false →
       for_each parse_line lines q = Raise IndexError.
Proof.
  induction lines as [|line lines IH]; intros q Hbad; [done|].
  simpl in Hbad. simpl.
  destruct (line_ok line) eqn:Hl.
  - destruct (parse_line_good q line Hl) as [q' ->]. simpl. by apply IH.
  - by rewrite parse_line_bad.
Qed.

Lemma parse_block_raising (block : string) :
  raising_block block → parse_block block = Raise IndexError.
Proof.
  intros [Hlen Hbad]. unfold parse_block.
  destruct (truthy (strip block)) eqn:Hblank; simpl;
    [|rewrite (block_lines_blank block Hblank) in Hlen; simpl in Hlen; lia].
  destruct (Nat.ltb_spec (length (block_lines block)) 6) as [?|_]; [lia|].
  rewrite parse_question_eq. simpl.
  unfold correct_lines_filled in Hbad. by rewrite parse_lines_raise.
Qed.

Lemma parse_block_raise_iff (block : string) (e : exn) :
  parse_block block = Raise e ↔ e = IndexError ∧ raising_block block.
Proof.
  split.
  - intros Hr. unfold raising_block.
    destruct (correct_lines_filled block) eqn:Hf.
    { destruct (parse_block_returns block Hf) as [r Hok]. congruence. }
    destruct (Nat.le_gt_cases 6 (length (block_lines block))) as [Hlen|Hlen].
    + rewrite parse_block_raising in Hr by done. by injection Hr as <-.
    + rewrite parse_block_short in Hr by done. done.
  - intros [-> Hb]. by apply parse_block_raising.
Qed.

Lemma parse_blocks_raise_iff (blocks : list string) :
  ∀ acc e,
    parse_blocks acc blocks = Raise e
    ↔ e = IndexError ∧ Exists raising_block blocks.
Proof.
  unfold parse_blocks.
  induction blocks as [|b blocks IH]; intros acc e; simpl.
  { split; [done|]. intros [_ H]. by apply Exists_nil in H. }
  rewrite Exists_cons.
  destruct (parse_block b) as [r|e'] eqn:Hb; simpl.
  - rewrite IH. split; [intros [-> Hr]; auto|].
    intros [-> [Hr|Hr]]; [|done].
    apply parse_block_raising in Hr. congruence.
  - apply parse_block_raise_iff in Hb as [-> Hb].
    split; [intros [= <-]; auto|by intros [-> _]].
Qed.

(** X1. On an ASCII input the parser raises exactly when some block has at
    least six non-blank lines and, among them, a line starting with
    [Correct:] whose text between that colon and the next colon (or the end
    of the line) is blank, as in [Correct:] and in [Correct::B]; the
    exception is then [IndexError].  Blocks of fewer than six lines never
    make it raise. *)
Theorem parse_quiz_raises_iff (quiz_text : string) (e : exn) :
  is_ascii quiz_text = true →
  _parse_quiz quiz_text = Raise e
  ↔ e = IndexError ∧ Exists raising_block (split quiz_text "---").
Proof. intros _. apply parse_blocks_raise_iff. Qed.

Lemma parse_quiz_raises_iff_witness :
  is_ascii text_empty_correct = true
  ∧ (_parse_quiz text_empty_correct = Raise IndexError
     ↔ IndexError = IndexError
       ∧ Exists raising_block (split text_empty_correct "---")).
Proof.
  assert (H : is_ascii text_empty_correct = true)
    by (vm_compute; reflexivity).
  split; [exact H|].
  exact (parse_quiz_raises_iff text_empty_correct IndexError H).
Defined.

(** *** The result, block by block *)

Lemma omap_length_le {A B} (f : A → option B) (xs : list A) :
  (length (omap f xs) ≤ length xs)%nat.
Proof.
  induction xs as [|x xs IH]; csimpl; [done|].
  destruct (f x); simpl; lia.
Qed.

Lemma parse_blocks_omap (blocks : list string) :
  ∀ acc qs,
    parse_blocks acc blocks = Ok qs →
    qs = acc ++ omap block_question blocks.
Proof.
  unfold parse_blocks.
  induction blocks as [|b blocks IH]; intros acc qs; simpl.
  { intros [= <-]. by rewrite app_nil_r. }
  unfold block_question.
  destruct (parse_block b) as [[q|]|e]; simpl; [| |done]; intros Hrun;
    apply IH in Hrun as ->; [|done].
  by rewrite <- app_assoc.
Qed.

(** X2. When the parser returns, its result is the list of the questions
    of the blocks that yield one, in the order of the blocks: each block is
    parsed on its own, and a block that yields nothing does not affect the
    others. *)
Theorem parse_quiz_blockwise (quiz_text : string) (qs : list QuizQuestion) :
  _parse_quiz quiz_text = Ok qs →
  qs = omap block_question (split quiz_text "---")
  ∧ (length qs ≤ length (split quiz_text "---"))%nat.
Proof.
  intros Hp. apply parse_blocks_omap in Hp. simpl in Hp. subst qs.
  split; [done|]. apply omap_length_le.
Qed.

Lemma parse_quiz_blockwise_witness :
  _parse_quiz text_two_blocks = Ok questions_two_blocks
  ∧ questions_two_blocks = omap block_question (split text_two_blocks "---")
  ∧ (length questions_two_blocks
     ≤ length (split text_two_blocks "---"))%nat.
Proof.
  assert (H : _parse_quiz text_two_blocks = Ok questions_two_blocks)
    by (vm_compute; reflexivity).
  split; [exact H|].
  exact (parse_quiz_blockwise text_two_blocks questions_two_blocks H).
Defined.

(** *** The shape of a parsed question *)

Lemma upper_char_idemp (c : ascii) : upper_char (upper_char c) = upper_char c.
Proof.
  apply nat_of_ascii_inj. rewrite (upper_char_nat (upper_char c)).
  rewrite upper_char_nat.
  destruct ((97 <=? nat_of_ascii c)%nat && (nat_of_ascii c <=? 122)%nat)
    eqn:Hlow.
  - apply andb_true_iff in Hlow as [_ Hle]. apply Nat.leb_le in Hle.
    assert (Hf : (97 <=? nat_of_ascii c - 32)%nat = false)
      by (apply Nat.leb_gt; lia).
    by rewrite Hf.
  - by rewrite Hlow.
Qed.

Lemma upper_idemp (s : string) : upper (upper s) = upper s.
Proof.
  induction s as [|c s IH]; simpl; [done|].
  by rewrite upper_char_idemp, IH.
Qed.

Lemma option_line_label (line : string) :
  is_option_line line = true → option_key line ∈ option_labels.
Proof.
  unfold is_option_line, startswith, option_labels. intros H.
  repeat (apply orb_true_iff in H as [H|H]);
    apply prefix_app in H as [t ->]; simpl; set_solver.
Qed.

Lemma declared_letter_upper (line : string) :
  upper (declared_letter line) = declared_letter line.
Proof.
  unfold declared_letter. destruct (correct_text line); [done|].
  apply upper_idemp.
Qed.

Lemma parse_line_shape (q q' : QuizQuestion) (line : string) :
  shape_kept q → parse_line q line = Ok q' → shape_kept q'.
Proof.
  intros (Hdom & Hup & Hex) Hp.
  destruct (line_ok line) eqn:Hok;
    [|rewrite parse_line_bad in Hp by done; done].
  destruct (is_option_line line) eqn:Ho.
  { rewrite parse_line_option in Hp by done. injection Hp as <-.
    split; [|done]. simpl. rewrite dom_insert_L.
    apply union_subseteq. split; [|done].
    apply singleton_subseteq_l. by apply option_line_label. }
  destruct (is_correct_line line) eqn:Hc.
  { unfold line_ok in Hok. rewrite Hc in Hok.
    rewrite parse_line_correct in Hp by done. injection Hp as <-.
    split; [done|]. split; [|done]. apply declared_letter_upper. }
  unfold parse_line in Hp. rewrite Ho, Hc in Hp.
  destruct (is_explanation_line line); [|by injection Hp as <-].
  destruct (item _ 1); [|done]. injection Hp as <-.
  split; [done|]. split; [done|]. by eexists.
Qed.

Lemma shape_kept_well_shaped (q : QuizQuestion) :
  shape_kept q → well_shaped q.
Proof.
  intros (Hdom & Hup & Hex). split; [done|]. split; [|done].
  rewrite <- size_dom.
  apply subseteq_size in Hdom.
  assert (Hs : size option_labels = 4%nat) by (vm_compute; reflexivity).
  lia.
Qed.

Lemma parse_block_shape (block : string) (q : QuizQuestion) :
  parse_block block = Ok (Some q) → well_shaped q.
Proof.
  unfold parse_block. intros Hp.
  destruct (negb (truthy (strip block))); [done|].
  destruct (length (block_lines block) <? 6)%nat; [done|].
  rewrite parse_question_eq in Hp. simpl in Hp.
  destruct (for_each _ _ _) as [q2|] eqn:Hq2; [|done]. simpl in Hp.
  destruct (complete q2); [|done]. injection Hp as <-.
  apply shape_kept_well_shaped.
  eapply (for_each_invariant shape_kept); [|..|exact Hq2].
  - intros s x s'. apply parse_line_shape.
  - destruct (List.find _ _); (split; [|split]); simpl;
      try done; try (by eexists); rewrite dom_empty; set_solver.
Qed.

(** X3. Every question the parser returns has its option keys among A, B,
    C and D (so at most four options), an upper-case [correct] label, and
    an [explanation] entry (possibly the empty string). *)
Theorem parse_quiz_well_shaped (quiz_text : string) (qs : list QuizQuestion) :
  _parse_quiz quiz_text = Ok qs → Forall well_shaped qs.
Proof.
  intros Hp. apply parse_blocks_omap in Hp as ->. simpl.
  apply Forall_forall. intros q Hq.
  apply list_elem_of_omap in Hq as (b & _ & Hb).
  unfold block_question in Hb.
  destruct (parse_block b) as [[q'|]|] eqn:Hpb; try done.
  injection Hb as ->. by eapply parse_block_shape.
Qed.

Lemma parse_quiz_well_shaped_witness :
  _parse_quiz text_two_blocks = Ok questions_two_blocks
  ∧ Forall well_shaped questions_two_blocks.
Proof.
  assert (H : _parse_quiz text_two_blocks = Ok questions_two_blocks)
    by (vm_compute; reflexivity).
  split; [exact H|].
  exact (parse_quiz_well_shaped text_two_blocks questions_two_blocks H).
Defined.

(** *** The fields of an included block *)

Lemma explanation_line_other (line : string) :
  is_explanation_line line = true →
  is_option_line line = false ∧ is_correct_line line = false.
Proof.
  unfold is_explanation_line, startswith. intros H.
  apply prefix_app in H as [t ->]. done.
Qed.

Lemma parse_line_explanation (q : QuizQuestion) (line : string) :
  is_explanation_line line = true →
  parse_line q line = Ok (set_explanation q (text_after_colon line)).
Proof.
  intros He. destruct (explanation_line_other line He) as [Ho Hc].
  unfold parse_line. rewrite Ho, Hc, He.
  by rewrite split_max_item by (by apply explanation_line_contains).
Qed.

Lemma parse_line_plain (q : QuizQuestion) (line : string) :
  is_option_line line = false → is_correct_line line = false →
  is_explanation_line line = false → parse_line q line = Ok q.
Proof. intros Ho Hc He. unfold parse_line. by rewrite Ho, Hc, He. Qed.

Lemma last_option_cons (line : string) (lines : list string) (k : string) :
  last_option (line :: lines) k
  = match last_option lines k with
    | Some v => Some v
    | None => if is_key_line k line then Some (option_value line) else None
    end.
Proof.
  unfold last_option. simpl.
  destruct (is_key_line k line); [|by destruct (last _)].
  rewrite last_cons. by destruct (last _).
Qed.

Lemma last_explanation_cons (line : string) (lines : list string)
      (d : option string) :
  last_explanation (line :: lines) d
  = last_explanation lines
      (if is_explanation_line line then Some (text_after_colon line) else d).
Proof.
  unfold last_explanation. simpl.
  destruct (is_explanation_line line); [|done].
  rewrite last_cons. by destruct (last _).
Qed.

(** The second loop, when it returns: each field holds what the last line
    of its kind gave it, and the question text is untouched. *)
Lemma parse_lines_fields (lines : list string) :
  ∀ q q',
    for_each parse_line lines q = Ok q' →
    question q' = question q
    ∧ correct q' = last_declared lines (correct q)
    ∧ (∀ k, options q' !! k
            = match last_option lines k with
              | Some v => Some v
              | None => options q !! k
              end)
    ∧ explanation q' = last_explanation lines (explanation q).
Proof.
  induction lines as [|line lines IH]; intros q q' Hrun.
  { injection Hrun as <-. done. }
  simpl in Hrun.
  destruct (parse_line q line) as [q1|] eqn:Hq1; [|done]. simpl in Hrun.
  destruct (IH q1 q' Hrun) as (Hq & Hc & Ho & He).
  rewrite last_declared_cons, last_explanation_cons.
  assert (Hok : line_ok line = true).
  { destruct (line_ok line) eqn:Hl; [done|].
    rewrite parse_line_bad in Hq1 by done. done. }
  destruct (is_option_line line) eqn:Hio.
  - rewrite parse_line_option in Hq1 by done. injection Hq1 as <-.
    rewrite (option_line_not_correct line Hio).
    destruct (is_explanation_line line) eqn:Hie.
    { apply explanation_line_other in Hie as [? _]. congruence. }
    split; [done|]. split; [done|]. split; [|done].
    intros k. rewrite Ho, last_option_cons. unfold is_key_line.
    rewrite Hio. simpl. destruct (last_option lines k); [done|].
    rewrite lookup_insert. unfold option_value.
    destruct (decide (option_key line = k)) as [Hk|Hk].
    + by rewrite bool_decide_eq_true_2.
    + by rewrite bool_decide_eq_false_2.
  - assert (Hkey : ∀ k, is_key_line k line = false)
      by (intros k; unfold is_key_line; by rewrite Hio).
    destruct (is_correct_line line) eqn:Hic.
    + unfold line_ok in Hok. rewrite Hic in Hok.
      rewrite parse_line_correct in Hq1 by done. injection Hq1 as <-.
      destruct (is_explanation_line line) eqn:Hie.
      { apply explanation_line_other in Hie as [_ ?]. congruence. }
      split; [done|]. split; [done|]. split; [|done].
      intros k. rewrite Ho, last_option_cons, Hkey.
        by destruct (last_option lines k).
    + destruct (is_explanation_line line) eqn:Hie.
      * rewrite parse_line_explanation in Hq1 by done. injection Hq1 as <-.
        split; [done|]. split; [done|]. split; [|done].
        intros k. rewrite Ho, last_option_cons, Hkey.
        by destruct (last_option lines k).
      * rewrite parse_line_plain in Hq1 by done. injection Hq1 as <-.
        split; [done|]. split; [done|]. split; [|done].
        intros k. rewrite Ho, last_option_cons, Hkey.
        by destruct (last_option lines k).
Qed.

(** X4. A question the parser builds from a block takes its text from the
    first question line of the block and each other field from the last
    line of its kind: the label from the last correct-answer line, each
    option from the last option line with that key (a repeated key
    overwrites), the explanation from the last explanation line, or the
    empty string when the block has none. *)
Theorem parse_block_fields (block : string) (q : QuizQuestion) :
  parse_block block = Ok (Some q) →
  question q = first_question (block_lines block)
  ∧ correct q = last_declared (block_lines block) ""
  ∧ (∀ k, options q !! k = last_option (block_lines block) k)
  ∧ explanation q = last_explanation (block_lines block) (Some "").
Proof.
  unfold parse_block. intros Hp.
  destruct (negb (truthy (strip block))); [done|].
  destruct (length (block_lines block) <? 6)%nat; [done|].
  rewrite parse_question_eq in Hp. simpl in Hp.
  destruct (for_each _ _ _) as [q2|] eqn:Hq2; [|done]. simpl in Hp.
  destruct (complete q2); [|done]. injection Hp as <-.
  apply parse_lines_fields in Hq2 as (Hq & Hc & Ho & He).
  unfold first_question.
  destruct (List.find _ _); simpl in *;
    (split; [done|]; split; [done|]; split; [|done]);
    intros k; rewrite Ho, lookup_empty; by destruct (last_option _ _).
Qed.

Lemma parse_block_fields_witness :
  parse_block block_repeated_lines = Ok (Some question_repeated_lines)
  ∧ question question_repeated_lines
    = first_question (block_lines block_repeated_lines)
  ∧ correct question_repeated_lines
    = last_declared (block_lines block_repeated_lines) ""
  ∧ (∀ k, options question_repeated_lines !! k
          = last_option (block_lines block_repeated_lines) k)
  ∧ explanation question_repeated_lines
    = last_explanation (block_lines block_repeated_lines) (Some "").
Proof.
  assert (H : parse_block block_repeated_lines
              = Ok (Some question_repeated_lines))
    by (vm_compute; reflexivity).
  split; [exact H|].
  exact (parse_block_fields block_repeated_lines question_repeated_lines H).
Defined.

(** *** Score and results of an evaluation *)

Lemma evaluate_loop_length (user_answers : gmap Z string)
      (qs : list QuizQuestion) :
  ∀ i, length (fst (evaluate_loop user_answers i qs [] 0%Z)) = length qs.
Proof.
  induction qs as [|q qs IH]; intros i; simpl; [done|].
  rewrite evaluate_loop_app, length_app, IH. simpl. lia.
Qed.

Lemma evaluate_loop_score (user_answers : gmap Z string)
      (qs : list QuizQuestion) :
  ∀ i rs score,
    snd (evaluate_loop user_answers i qs rs score)
    = (score + count_correct (fst (evaluate_loop user_answers i qs [] 0%Z)))%Z.
Proof.
  unfold count_correct.
  induction qs as [|q qs IH]; intros i rs score; simpl; [lia|].
  rewrite IH. rewrite (evaluate_loop_app _ _ _ [_]).
  rewrite List.filter_app, length_app. simpl.
  destruct (bool_decide _); simpl; lia.
Qed.

Lemma evaluate_quiz_eq (qs : list QuizQuestion)
      (user_answers : gmap Z string) :
  ∃ p,
    evaluate_quiz qs user_answers
    = Ok {| QuizAgent.score :=
              count_correct (fst (evaluate_loop user_answers 0 qs [] 0%Z));
            QuizAgent.total := Z.of_nat (length qs);
            QuizAgent.percentage := p;
            results := fst (evaluate_loop user_answers 0 qs [] 0%Z) |}.
Proof.
  unfold evaluate_quiz.
  pose proof (evaluate_loop_score user_answers qs 0 [] 0) as Hs.
  destruct (evaluate_loop user_answers 0 qs [] 0%Z) as [rs sc] eqn:Hl.
  simpl in Hs. subst sc. rewrite Z.add_0_l.
  destruct qs as [|q qs]; [by eexists|].
  unfold int_truediv.
  destruct (Z.eqb_spec (Z.of_nat (length (q :: qs))) 0) as [H0|_];
    [simpl in H0; lia|].
  by eexists.
Qed.

Lemma count_correct_le (rs : list QuestionResult) :
  (0 ≤ count_correct rs ≤ Z.of_nat (length rs))%Z.
Proof.
  unfold count_correct. pose proof (List.filter_length_le is_correct rs). lia.
Qed.

(** X5. An evaluation always returns; it has one result per question, its
    total is the number of questions, and its score is the number of results
    marked correct, hence between 0 and the total. *)
Theorem evaluate_quiz_score (qs : list QuizQuestion)
        (user_answers : gmap Z string) :
  ∃ r,
    evaluate_quiz qs user_answers = Ok r
    ∧ length (results r) = length qs
    ∧ QuizAgent.total r = Z.of_nat (length qs)
    ∧ QuizAgent.score r = count_correct (results r)
    ∧ (0 ≤ QuizAgent.score r ≤ QuizAgent.total r)%Z.
Proof.
  destruct (evaluate_quiz_eq qs user_answers) as [p ->].
  eexists. split; [reflexivity|]. simpl.
  rewrite evaluate_loop_length. split; [done|]. split; [done|].
  split; [done|].
  pose proof (count_correct_le (fst (evaluate_loop user_answers 0 qs [] 0%Z)))
    as Hc.
  rewrite evaluate_loop_length in Hc. done.
Qed.

Lemma evaluate_loop_lookup_fields (user_answers : gmap Z string)
      (qs : list QuizQuestion) :
  ∀ (i : Z) (k : nat) (q : QuizQuestion),
    qs !! k = Some q →
    ∃ res,
      fst (evaluate_loop user_answers i qs [] 0%Z) !! k = Some res
      ∧ question_num res = (i + Z.of_nat k + 1)%Z
      ∧ result_question res = question q
      ∧ correct_answer res = correct q
      ∧ result_explanation res
        = default "No explanation available." (explanation q).
Proof.
  induction qs as [|q0 qs IH]; intros i k q Hk; [done|].
  simpl. rewrite evaluate_loop_app.
  destruct k as [|k]; simpl in *.
  - injection Hk as ->. eexists. split; [reflexivity|]. simpl.
    split; [lia|done].
  - destruct (IH (i + 1)%Z k q Hk) as (res & Hres & Hnum & Hrest).
    exists res. split; [done|]. split; [lia|done].
Qed.

(** X6. The results follow the questions in order: the result at index
    [i] is numbered [i + 1] and carries the text and the label of the
    question at index [i], the answer graded for it, and its explanation,
    or the text "No explanation available." for a question without one. *)
Theorem evaluate_quiz_result_fields (qs : list QuizQuestion)
        (user_answers : gmap Z string) (i : nat) (q : QuizQuestion) :
  qs !! i = Some q →
  ∃ r res,
    evaluate_quiz qs user_answers = Ok r
    ∧ results r !! i = Some res
    ∧ question_num res = (Z.of_nat i + 1)%Z
    ∧ result_question res = question q
    ∧ user_answer res = answer_at user_answers i
    ∧ correct_answer res = correct q
    ∧ result_explanation res
      = default "No explanation available." (explanation q).
Proof.
  intros Hi.
  destruct (evaluate_quiz_eq qs user_answers) as [p ->].
  destruct (evaluate_loop_lookup_fields user_answers qs 0 i q Hi)
    as (res & Hres & Hnum & Hq & Hc & He).
  destruct (evaluate_loop_lookup user_answers qs 0 i q Hi)
    as (res' & Hres' & Hans & _).
  rewrite Hres in Hres'. injection Hres' as <-.
  eexists _, res. split; [reflexivity|]. simpl.
  split; [done|]. split; [lia|]. split; [done|].
  split; [by rewrite Hans, Z.add_0_l|]. done.
Qed.

Lemma evaluate_quiz_result_fields_witness :
  four_questions !! 3%nat = Some question_label_not_option
  ∧ ∃ r res,
      evaluate_quiz four_questions three_answers = Ok r
      ∧ results r !! 3%nat = Some res
      ∧ question_num res = (Z.of_nat 3 + 1)%Z
      ∧ result_question res = question question_label_not_option
      ∧ user_answer res = answer_at three_answers 3
      ∧ correct_answer res = correct question_label_not_option
      ∧ result_explanation res
        = default "No explanation available."
                  (explanation question_label_not_option).
Proof.
  split; [reflexivity|].
  apply (evaluate_quiz_result_fields four_questions three_answers 3
                                     question_label_not_option).
  reflexivity.
Defined.

Lemma filter_length_all {A} (f : A → bool) (xs : list A) :
  length (List.filter f xs) = length xs ↔ Forall (λ x, f x = true) xs.
Proof.
  induction xs as [|x xs IH]; simpl.
  - split; [by constructor|done].
  - pose proof (List.filter_length_le f xs) as Hle.
    rewrite Forall_cons. destruct (f x); simpl.
    + rewrite <- IH. split; [intros [= ?]; done|by intros [_ ->]].
    + split; [lia|by intros [? _]].
Qed.

Lemma evaluate_loop_marks (user_answers : gmap Z string)
      (qs : list QuizQuestion) :
  Forall (λ res, is_correct res = true)
         (fst (evaluate_loop user_answers 0 qs [] 0%Z))
  ↔ ∀ i q, qs !! i = Some q →
           caseless_eq (answer_at user_answers i) (correct q) = true.
Proof.
  rewrite Forall_lookup. unfold answer_at. split.
  - intros Hall i q Hi.
    destruct (evaluate_loop_lookup user_answers qs 0 i q Hi)
      as (res & Hres & Hans & Hcor).
    specialize (Hall i res Hres). rewrite Hcor in Hall.
    apply bool_decide_eq_true in Hall.
    rewrite Hans, Z.add_0_l in Hall. by apply upper_eq_iff.
  - intros Hall i res Hres.
    assert (Hlt : (i < length qs)%nat).
    { rewrite <- (evaluate_loop_length user_answers qs 0).
      by eapply lookup_lt_Some. }
    destruct (lookup_lt_is_Some_2 qs i Hlt) as [q Hq].
    destruct (evaluate_loop_lookup user_answers qs 0 i q Hq)
      as (res' & Hres' & Hans & Hcor).
    rewrite Hres in Hres'. injection Hres' as <-.
    rewrite Hcor. apply bool_decide_eq_true.
    rewrite Hans, Z.add_0_l. apply upper_eq_iff. by apply Hall.
Qed.

(** X7. When the labels of the questions and the answers graded for their
    indices are ASCII strings, the score of an evaluation equals its total
    exactly when, for every question, the answer graded for its index (the
    empty string when none was submitted) equals the question's label up to
    case. *)
Theorem evaluate_quiz_full_score (qs : list QuizQuestion)
        (user_answers : gmap Z string) :
  Forall (λ q, is_ascii (correct q) = true) qs →
  (∀ i, (i < length qs)%nat → is_ascii (answer_at user_answers i) = true) →
  ∃ r,
    evaluate_quiz qs user_answers = Ok r
    ∧ (QuizAgent.score r = QuizAgent.total r
       ↔ ∀ i q, qs !! i = Some q →
                caseless_eq (answer_at user_answers i) (correct q) = true).
Proof.
  intros _ _.
  destruct (evaluate_quiz_eq qs user_answers) as [p ->].
  eexists. split; [reflexivity|]. simpl.
  rewrite <- evaluate_loop_marks, <- filter_length_all.
  unfold count_correct. rewrite evaluate_loop_length. lia.
Qed.

Lemma evaluate_quiz_full_score_witness :
  Forall (λ q, is_ascii (correct q) = true) four_questions
  ∧ (∀ i, (i < length four_questions)%nat →
          is_ascii (answer_at three_answers i) = true)
  ∧ ∃ r,
      evaluate_quiz four_questions three_answers = Ok r
      ∧ (QuizAgent.score r = QuizAgent.total r
         ↔ ∀ i q, four_questions !! i = Some q →
                  caseless_eq (answer_at three_answers i) (correct q) = true).
Proof.
  assert (H1 : Forall (λ q, is_ascii (correct q) = true) four_questions)
    by (repeat constructor).
  assert (H2 : ∀ i, (i < length four_questions)%nat →
                    is_ascii (answer_at three_answers i) = true).
  { intros i Hi. simpl in Hi.
    do 4 (destruct i as [|i]; [vm_compute; reflexivity|]). lia. }
  split; [exact H1|]. split; [exact H2|].
  exact (evaluate_quiz_full_score four_questions three_answers H1 H2).
Defined.

Lemma evaluate_loop_agree (a1 a2 : gmap Z string) (qs : list QuizQuestion) :
  ∀ i rs score,
    (∀ k, (i ≤ k < i + Z.of_nat (length qs))%Z → a1 !! k = a2 !! k) →
    evaluate_loop a1 i qs rs score = evaluate_loop a2 i qs rs score.
Proof.
  induction qs as [|q qs IH]; intros i rs score Hagree; simpl; [done|].
  rewrite (Hagree i) by (simpl length; lia).
  apply IH. intros k Hk. apply Hagree. simpl length. lia.
Qed.

(** X8. An evaluation reads the answers only at the indices of the
    questions: two answer maps that agree on 0 .. len(questions) - 1 give
    the same evaluation, whatever other keys they hold. *)
Theorem evaluate_quiz_answers_local (qs : list QuizQuestion)
        (a1 a2 : gmap Z string) :
  (∀ k, (0 ≤ k < Z.of_nat (length qs))%Z → a1 !! k = a2 !! k) →
  evaluate_quiz qs a1 = evaluate_quiz qs a2.
Proof.
  intros Hagree. unfold evaluate_quiz.
  by rewrite (evaluate_loop_agree a1 a2 qs 0 [] 0%Z).
Qed.

Lemma evaluate_quiz_answers_local_witness :
  (∀ k, (0 ≤ k < Z.of_nat (length four_questions))%Z →
        three_answers !! k = three_answers_and_more !! k)
  ∧ evaluate_quiz four_questions three_answers
    = evaluate_quiz four_questions three_answers_and_more.
Proof.
  assert (H : ∀ k, (0 ≤ k < Z.of_nat (length four_questions))%Z →
                   three_answers !! k = three_answers_and_more !! k).
  { intros k Hk. unfold three_answers_and_more. simpl in Hk.
    rewrite lookup_insert_ne by lia. rewrite lookup_insert_ne by lia.
    reflexivity. }
  split; [exact H|].
  exact (evaluate_quiz_answers_local four_questions three_answers
                                     three_answers_and_more H).
Defined.

(** *** The difficulty policy on any window *)

Lemma calculate_difficulty_slice (H : list QuizRecord) (w : Z) :
  H ≠ [] →
  tools.calculate_difficulty H w
  = match list_slice_from (- w) H with
    | [] => Raise ZeroDivisionError
    | recent => Ok (tier_of_window recent)
    end.
Proof.
  intros HH. unfold tools.calculate_difficulty.
  destruct H as [|r H]; [done|].
  destruct (list_slice_from (- w) (r :: H)) as [|r' recent] eqn:Hs;
    [reflexivity|].
  remember (r' :: recent) as rs eqn:Hrs.
  assert (Hne : rs ≠ []) by (by subst rs).
  assert (Hlen : length (map Storage.percentage rs) = length rs)
    by apply length_map.
  rewrite float_div_int_length by done. simpl.
  unfold tier_of_window, mean. rewrite Hlen.
  destruct rs as [|r0 rs]; [done|].
  unfold config.ADVANCED_THRESHOLD, config.INTERMEDIATE_THRESHOLD.
  repeat case_match; reflexivity.
Qed.

Lemma list_slice_from_nil {A} (w : Z) (xs : list A) :
  list_slice_from (- w) xs = [] ↔ xs = [] ∨ (w ≤ - Z.of_nat (length xs))%Z.
Proof.
  unfold list_slice_from.
  rewrite <- length_zero_iff_nil, length_skipn.
  destruct xs as [|x xs]; [simpl; split; [by left|lia]|].
  simpl length.
  destruct (Z.ltb_spec (- w) 0); split; try lia;
    intros [?|?]; try done; lia.
Qed.

Lemma tier_of_window_range (records : list QuizRecord) :
  tier_of_window records = "beginner"
  ∨ tier_of_window records = "intermediate"
  ∨ tier_of_window records = "advanced".
Proof.
  unfold tier_of_window. destruct records; [by left|].
  repeat case_match; auto.
Qed.

(** X9. Whenever the policy returns, its result is one of the three tiers
    [beginner], [intermediate] and [advanced], whatever the percentages
    (not-a-number included) and the window. *)
Theorem calculate_difficulty_range (H : list QuizRecord) (w : Z) (d : string) :
  tools.calculate_difficulty H w = Ok d →
  d = "beginner" ∨ d = "intermediate" ∨ d = "advanced".
Proof.
  destruct H as [|r H]; [intros [= <-]; by left|].
  rewrite calculate_difficulty_slice by done.
  destruct (list_slice_from _ _) as [|r' recent]; [done|].
  intros Heq.
  replace d with (tier_of_window (r' :: recent)) by congruence.
  apply tier_of_window_range.
Qed.

Lemma calculate_difficulty_range_witness :
  tools.calculate_difficulty history_90_95_88 3 = Ok "advanced"
  ∧ ("advanced" = "beginner" ∨ "advanced" = "intermediate"
     ∨ "advanced" = "advanced").
Proof.
  assert (H : tools.calculate_difficulty history_90_95_88 3 = Ok "advanced")
    by (vm_compute; reflexivity).
  split; [exact H|].
  exact (calculate_difficulty_range history_90_95_88 3 "advanced" H).
Defined.

(** X10. The policy raises exactly when the history is not empty and the
    window is negative with an absolute value of at least the length of the
    history (the slice [quiz_scores[-recent_count:]] is then empty); the
    exception is [ZeroDivisionError]. *)
Theorem calculate_difficulty_raises_iff (H : list QuizRecord) (w : Z)
        (e : exn) :
  tools.calculate_difficulty H w = Raise e
  ↔ e = ZeroDivisionError ∧ H ≠ [] ∧ (w ≤ - Z.of_nat (length H))%Z.
Proof.
  destruct H as [|r H]; [by split; [|intros (_ & ? & _)]|].
  rewrite calculate_difficulty_slice by done.
  pose proof (list_slice_from_nil w (r :: H)) as Hnil.
  destruct (list_slice_from (- w) (r :: H)) as [|r' recent].
  - destruct Hnil as [[?|Hw] _]; [done..|].
    split; [by intros [= <-]|by intros [-> _]].
  - split; [done|]. intros (_ & _ & Hw).
    destruct Hnil as [_ Hnil]. specialize (Hnil (or_intror Hw)). done.
Qed.

(** X11. With a window of 0, or a window of at least the length of the
    history, the policy returns the tier of the mean over the whole
    history. *)
Theorem calculate_difficulty_whole_history (H : list QuizRecord) (w : Z) :
  w = 0%Z ∨ (Z.of_nat (length H) ≤ w)%Z →
  tools.calculate_difficulty H w = Ok (tier_of_window H).
Proof.
  intros Hw. destruct H as [|r H]; [reflexivity|].
  rewrite calculate_difficulty_slice by done.
  assert (Hs : list_slice_from (- w) (r :: H) = r :: H).
  { unfold list_slice_from.
    replace (Z.to_nat _) with 0%nat; [done|].
    destruct (Z.ltb_spec (- w) 0); simpl length in *; lia. }
  by rewrite Hs.
Qed.

Lemma calculate_difficulty_whole_history_witness :
  (5%Z = 0%Z ∨ (Z.of_nat (length history_90_95_88) ≤ 5)%Z)
  ∧ tools.calculate_difficulty history_90_95_88 5
    = Ok (tier_of_window history_90_95_88).
Proof.
  assert (H : 5%Z = 0%Z ∨ (Z.of_nat (length history_90_95_88) ≤ 5)%Z)
    by (right; simpl; lia).
  split; [exact H|].
  exact (calculate_difficulty_whole_history history_90_95_88 5 H).
Defined.

(** X12. A negative window -k that is shorter than the history does not
    select the last k records: the policy averages the history without its
    first k records. *)
Theorem calculate_difficulty_negative_window (H : list QuizRecord) (w : Z) :
  (w < 0)%Z → (- w < Z.of_nat (length H))%Z →
  tools.calculate_difficulty H w
  = Ok (tier_of_window (skipn (Z.to_nat (- w)) H)).
Proof.
  intros Hneg Hlt. destruct H as [|r H]; [simpl in Hlt; lia|].
  rewrite calculate_difficulty_slice by done.
  assert (Hs : list_slice_from (- w) (r :: H)
               = skipn (Z.to_nat (- w)) (r :: H)).
  { unfold list_slice_from.
    destruct (Z.ltb_spec (- w) 0); [lia|]. f_equal. simpl length in *. lia. }
  rewrite Hs.
  destruct (skipn _ _) as [|r' recent] eqn:Hd; [|done].
  apply (f_equal (@length _)) in Hd. rewrite length_skipn in Hd.
  simpl length in *. lia.
Qed.

Lemma calculate_difficulty_negative_window_witness :
  (-1 < 0)%Z
  ∧ (- -1 < Z.of_nat (length [record_with 10; record_with 90]))%Z
  ∧ tools.calculate_difficulty [record_with 10; record_with 90] (-1)
    = Ok (tier_of_window
            (skipn (Z.to_nat (- -1)) [record_with 10; record_with 90])).
Proof.
  split; [lia|]. split; [simpl; lia|].
  apply (calculate_difficulty_negative_window
           [record_with 10; record_with 90] (-1)); simpl; lia.
Defined.

(** *** Saving and loading *)

(** X13. A saved progress is what a load of the same user then returns,
    whatever the file held before (a missing file included), through the
    functions of [tools.py] and through the methods of the engine; the load
    leaves the file as the save left it. *)
Theorem save_then_load (user_id : string) (p : UserProgress) (f : file) :
  ∃ f1,
    tools.save_user_progress user_id p f = (Ok tt, f1)
    ∧ tools.load_user_progress user_id f1 = (Ok p, f1)
    ∧ PersonalisationEngine.save_progress user_id p f = (Ok tt, f1)
    ∧ PersonalisationEngine.load_progress user_id f1 = (Ok p, f1).
Proof.
  unfold PersonalisationEngine.save_progress,
    PersonalisationEngine.load_progress.
  rewrite save_user_progress_eq. eexists. split; [reflexivity|].
  rewrite load_user_progress_eq, stored_save_eq. done.
Qed.

(** X14. Saving twice for the same user leaves the file as the second save
    alone would: the later record replaces the earlier one and nothing else
    remembers it. *)
Theorem save_overwrites (user_id : string) (p1 p2 : UserProgress) (f : file) :
  snd (tools.save_user_progress user_id p2
         (snd (tools.save_user_progress user_id p1 f)))
  = snd (tools.save_user_progress user_id p2 f).
Proof.
  rewrite !save_user_progress_eq. simpl. by rewrite insert_insert_eq.
Qed.

(** *** What an update changes *)

Lemma update_quiz_score_eq
      (user_id topic : string) (score total : Z) (now : string) (f : file)
      (r : QuizRecord) :
  tools.new_record topic score total now = Ok r →
  tools.update_quiz_score user_id topic score total now f
  = (Ok (updated (stored f user_id) r),
     Some (<[user_id := updated (stored f user_id) r]> (records f))).
Proof.
  intros Hr.
  assert (Ht : Storage.topic r = topic).
  { unfold tools.new_record in Hr.
    destruct (int_truediv score total); [|done]. by injection Hr as <-. }
  unfold tools.update_quiz_score, Storage.bind.
  rewrite load_user_progress_eq, Hr. unfold lift at 1.
  rewrite calculate_difficulty_eq by lia. unfold lift.
  rewrite save_user_progress_eq. simpl. unfold updated. by rewrite Ht.
Qed.

Lemma new_record_cases (topic : string) (score total : Z) (now : string) :
  (total = 0%Z
   ∧ tools.new_record topic score total now = Raise ZeroDivisionError)
  ∨ (total ≠ 0%Z ∧ ∃ r, tools.new_record topic score total now = Ok r).
Proof.
  destruct (decide (total = 0%Z)) as [->|Hne]; [by left|right].
  split; [done|].
  destruct (new_record_nonzero topic score total now Hne) as (r & Hr & _).
  by exists r.
Qed.

(** X16. An update for one user, whether it returns or raises, leaves the
    record of every other user in the file as it was; this holds for the
    function of [tools.py] and for the method of the engine. *)
Theorem update_quiz_score_other_user
        (user_id other topic : string) (score total : Z) (now : string)
        (f : file) :
  other ≠ user_id →
  records (snd (tools.update_quiz_score user_id topic score total now f))
    !! other = records f !! other
  ∧ records (snd (PersonalisationEngine.update_quiz_score
                    user_id topic score total now f))
      !! other = records f !! other.
Proof.
  intros Hne.
  assert (Ht : records (snd (tools.update_quiz_score
                               user_id topic score total now f))
                 !! other = records f !! other); [|split; exact Ht].
  destruct (new_record_cases topic score total now)
    as [[-> _]|[_ [r Hr]]].
  - by rewrite update_quiz_score_zero.
  - rewrite (update_quiz_score_eq _ _ _ _ _ _ r Hr). simpl.
    unfold records. simpl. by rewrite lookup_insert_ne.
Qed.

Lemma update_quiz_score_other_user_witness :
  "alice" ≠ "bob"
  ∧ records (snd (tools.update_quiz_score "bob" "sets" 1 2 "t0" file_alice))
      !! "alice" = records file_alice !! "alice"
  ∧ records (snd (PersonalisationEngine.update_quiz_score
                    "bob" "sets" 1 2 "t0" file_alice))
      !! "alice" = records file_alice !! "alice".
Proof.
  split; [discriminate|].
  apply (update_quiz_score_other_user "bob" "alice" "sets" 1 2 "t0"
                                      file_alice).
  discriminate.
Defined.

Lemma add_topic_topics (p : UserProgress) (topic : string) :
  topics_studied (tools.add_topic p topic)
  = if bool_decide (topic ∈ topics_studied p) then topics_studied p
    else topics_studied p ++ [topic].
Proof. unfold tools.add_topic. by case_bool_decide. Qed.

Lemma add_topic_total_time (p : UserProgress) (topic : string) :
  total_time (tools.add_topic p topic) = total_time p.
Proof. unfold tools.add_topic. by case_bool_decide. Qed.

Lemma update_quiz_score_returned_eq
      (user_id topic : string) (score total : Z) (now : string) (f : file)
      (p : UserProgress) (f' : file) :
  tools.update_quiz_score user_id topic score total now f = (Ok p, f') →
  ∃ r, Storage.topic r = topic ∧ p = updated (stored f user_id) r.
Proof.
  intros Hu.
  destruct (new_record_cases topic score total now)
    as [[-> _]|[Hne [r Hr]]].
  { rewrite update_quiz_score_zero in Hu. done. }
  rewrite (update_quiz_score_eq _ _ _ _ _ _ r Hr) in Hu.
  injection Hu as <- <-.
  destruct (new_record_nonzero topic score total now Hne)
    as (r' & Hr' & Ht & _).
  rewrite Hr in Hr'. injection Hr' as <-. by exists r.
Qed.

(** X17. An update that returns, through the function of [tools.py] or
    through the method of the engine, records the topic once: the topic is
    among the topics studied afterwards, it is appended at the end only
    when it was not there, a list without repetition stays without
    repetition, and [total_time] is unchanged. *)
Theorem update_quiz_score_topics
        (user_id topic : string) (score total : Z) (now : string) (f : file)
        (p : UserProgress) (f' : file) :
  tools.update_quiz_score user_id topic score total now f = (Ok p, f')
  ∨ PersonalisationEngine.update_quiz_score user_id topic score total now f
    = (Ok p, f') →
  topic ∈ topics_studied p
  ∧ topics_studied p
    = (if bool_decide (topic ∈ topics_studied (stored f user_id))
       then topics_studied (stored f user_id)
       else topics_studied (stored f user_id) ++ [topic])
  ∧ (NoDup (topics_studied (stored f user_id)) → NoDup (topics_studied p))
  ∧ total_time p = total_time (stored f user_id).
Proof.
  intros Hu.
  assert (Ht : tools.update_quiz_score user_id topic score total now f
               = (Ok p, f')) by (by destruct Hu).
  destruct (update_quiz_score_returned_eq _ _ _ _ _ _ _ _ Ht)
    as (r & Htopic & ->).
  unfold updated. simpl.
  rewrite Htopic, add_topic_topics, add_topic_total_time.
  simpl. case_bool_decide as Hin.
  - done.
  - split; [apply elem_of_app; right; by apply list_elem_of_singleton|].
    split; [done|]. split; [|done].
    intros Hnd. apply NoDup_app. split; [done|].
    split; [|apply NoDup_singleton].
    intros x Hx Hx'. apply list_elem_of_singleton in Hx'. by subst x.
Qed.

Lemma update_quiz_score_topics_witness :
  (tools.update_quiz_score "alice" "maps" 1 2 "t0" file_alice
   = (Ok progress_alice_maps, file_alice_maps)
   ∨ PersonalisationEngine.update_quiz_score "alice" "maps" 1 2 "t0"
                                             file_alice
     = (Ok progress_alice_maps, file_alice_maps))
  ∧ "maps" ∈ topics_studied progress_alice_maps
  ∧ topics_studied progress_alice_maps
    = (if bool_decide ("maps" ∈ topics_studied (stored file_alice "alice"))
       then topics_studied (stored file_alice "alice")
       else topics_studied (stored file_alice "alice") ++ ["maps"])
  ∧ (NoDup (topics_studied (stored file_alice "alice")) →
     NoDup (topics_studied progress_alice_maps))
  ∧ total_time progress_alice_maps = total_time (stored file_alice "alice").
Proof.
  assert (H : tools.update_quiz_score "alice" "maps" 1 2 "t0" file_alice
              = (Ok progress_alice_maps, file_alice_maps)
              ∨ PersonalisationEngine.update_quiz_score
                  "alice" "maps" 1 2 "t0" file_alice
                = (Ok progress_alice_maps, file_alice_maps))
    by (left; vm_compute; reflexivity).
  split; [exact H|].
  exact (update_quiz_score_topics "alice" "maps" 1 2 "t0" file_alice
           progress_alice_maps file_alice_maps H).
Defined.

(** *** Recommendations and the progress summary *)

Lemma stored_records (f : file) (user_id : string) :
  stored (Some (records f)) user_id = stored f user_id.
Proof. reflexivity. Qed.

Lemma get_recommendations_eq (round1 : float → float) (user_id : string)
      (f : file) :
  tools.get_recommendations round1 user_id f
  = (Ok (recommended round1 (stored f user_id)), Some (records f)).
Proof.
  unfold tools.get_recommendations, Storage.bind.
  rewrite load_user_progress_eq. unfold recommended.
  destruct (quiz_scores (stored f user_id)) as [|r H] eqn:Hq; [done|].
  assert (Hlen : length (map Storage.percentage (r :: H)) = length (r :: H))
    by apply length_map.
  unfold lift. rewrite float_div_int_length by done.
  unfold suggestion_band, mean. by rewrite Hlen.
Qed.

(** X18. [get_recommendations] never raises and never changes the records
    of the file.  It reports the stored difficulty and the number of topics
    studied; for a user without quiz history the average is 0 and the
    suggestion is the start message; otherwise the average is the rounded
    mean percentage of the whole history (not of the recent window) and the
    suggestion follows that mean by the bands 80 and 60. *)
Theorem get_recommendations_reads (round1 : float → float)
        (user_id : string) (f : file) :
  ∃ r f',
    tools.get_recommendations round1 user_id f = (Ok r, f')
    ∧ PersonalisationEngine.get_recommendations round1 user_id f = (Ok r, f')
    ∧ records f' = records f
    ∧ tools.difficulty r = current_difficulty (stored f user_id)
    ∧ tools.topics_completed r
      = Z.of_nat (length (topics_studied (stored f user_id)))
    ∧ match quiz_scores (stored f user_id) with
      | [] =>
          tools.average_score r = Int 0
          ∧ tools.suggestion r = "Start your learning journey!"
      | r0 :: H =>
          tools.average_score r
          = Float (round1 (mean (map Storage.percentage (r0 :: H))))
          ∧ tools.suggestion r
            = suggestion_band (mean (map Storage.percentage (r0 :: H)))
      end.
Proof.
  unfold PersonalisationEngine.get_recommendations.
  rewrite get_recommendations_eq. eexists _, _.
  split; [reflexivity|]. split; [reflexivity|]. split; [done|].
  split; [done|]. split; [done|].
  unfold recommended. simpl.
  by destruct (quiz_scores (stored f user_id)).
Qed.

Lemma list_slice_from_5 {A} (xs : list A) :
  list_slice_from (-5) xs = last_entries 5 xs.
Proof.
  unfold list_slice_from, last_entries. simpl. f_equal. lia.
Qed.

Lemma last_entries_length {A} (n : nat) (xs : list A) :
  length (last_entries n xs) = Nat.min n (length xs).
Proof. unfold last_entries. rewrite length_skipn. lia. Qed.

(** X19. [get_progress_summary] (and [get_user_dashboard], which is the
    same) never raises and never changes the records of the file.  It
    reports the user id, the stored difficulty and topics, the number of
    records of the history, the last five records of the history (all of
    them when there are fewer), and the average and suggestion of
    [get_recommendations]. *)
Theorem get_progress_summary_reads (round1 : float → float)
        (user_id : string) (f : file) :
  ∃ s r f',
    PersonalisationEngine.get_progress_summary round1 user_id f = (Ok s, f')
    ∧ LearningOrchestrator.get_user_dashboard round1 user_id f = (Ok s, f')
    ∧ tools.get_recommendations round1 user_id f = (Ok r, f')
    ∧ records f' = records f
    ∧ PersonalisationEngine.summary_user_id s = user_id
    ∧ PersonalisationEngine.summary_current_difficulty s
      = current_difficulty (stored f user_id)
    ∧ PersonalisationEngine.summary_topics_studied s
      = topics_studied (stored f user_id)
    ∧ PersonalisationEngine.total_quizzes s
      = Z.of_nat (length (quiz_scores (stored f user_id)))
    ∧ PersonalisationEngine.recent_scores s
      = last_entries 5 (quiz_scores (stored f user_id))
    ∧ length (PersonalisationEngine.recent_scores s)
      = Nat.min 5 (length (quiz_scores (stored f user_id)))
    ∧ PersonalisationEngine.summary_average_score s = tools.average_score r
    ∧ PersonalisationEngine.recommendation s = tools.suggestion r.
Proof.
  unfold LearningOrchestrator.get_user_dashboard,
    PersonalisationEngine.get_progress_summary,
    PersonalisationEngine.get_recommendations,
    PersonalisationEngine.load_progress, Storage.bind.
  rewrite load_user_progress_eq, !get_recommendations_eq.
  eexists _, _, _. split; [reflexivity|]. split; [reflexivity|].
  split; [reflexivity|]. split; [done|]. simpl.
  assert (Hrecent :
            match quiz_scores (stored f user_id) with
            | [] => []
            | _ :: _ => list_slice_from (-5) (quiz_scores (stored f user_id))
            end = last_entries 5 (quiz_scores (stored f user_id))).
  { destruct (quiz_scores (stored f user_id)) eqn:Hq; [done|].
    apply list_slice_from_5. }
  rewrite Hrecent, last_entries_length. done.
Qed.

(** *** Submitting a quiz through the orchestrator *)

Lemma evaluate_quiz_nonempty (qs : list QuizQuestion)
      (user_answers : gmap Z string) (topic now : string) :
  qs ≠ [] →
  ∃ r,
    tools.new_record
      topic (count_correct (fst (evaluate_loop user_answers 0 qs [] 0%Z)))
      (Z.of_nat (length qs)) now = Ok r
    ∧ evaluate_quiz qs user_answers
      = Ok {| QuizAgent.score :=
                count_correct (fst (evaluate_loop user_answers 0 qs [] 0%Z));
              QuizAgent.total := Z.of_nat (length qs);
              QuizAgent.percentage := Float (Storage.percentage r);
              results := fst (evaluate_loop user_answers 0 qs [] 0%Z) |}.
Proof.
  intros Hne. unfold evaluate_quiz, tools.new_record.
  pose proof (evaluate_loop_score user_answers qs 0 [] 0) as Hs.
  destruct (evaluate_loop user_answers 0 qs [] 0%Z) as [rs sc] eqn:Hl.
  simpl in Hs. subst sc. rewrite Z.add_0_l.
  destruct qs as [|q qs]; [done|].
  unfold int_truediv.
  destruct (Z.eqb_spec (Z.of_nat (length (q :: qs))) 0) as [H0|_];
    [simpl in H0; lia|].
  simpl. by eexists.
Qed.

Lemma suggestion_band_not_start (m : float) :
  suggestion_band m ≠ "Start your learning journey!".
Proof. unfold suggestion_band. by repeat case_match. Qed.

(** X20. Submitting a quiz with no question through the orchestrator
    raises [ZeroDivisionError]: the evaluation returns its guarded 0 per
    cent, but the update then divides the score by a total of 0.  No record
    is written. *)
Theorem orchestrator_evaluate_empty_quiz (round1 : float → float)
        (user_answers : gmap Z string) (topic user_id now : string)
        (f : file) :
  ∃ f',
    LearningOrchestrator.evaluate_quiz round1 [] user_answers
                                        topic user_id now f
    = (Raise ZeroDivisionError, f')
    ∧ records f' = records f.
Proof.
  unfold LearningOrchestrator.evaluate_quiz, Storage.bind, lift. simpl.
  change (PersonalisationEngine.update_quiz_score user_id topic 0 0 now f)
    with (tools.update_quiz_score user_id topic 0 0 now f).
  rewrite update_quiz_score_zero. by eexists.
Qed.

(** X21. Submitting a quiz with at least one question through the
    orchestrator returns and appends one record to the user's history: its
    topic and time stamp are those given, its score is the number of
    results marked correct and its total the number of questions, so that
    0 <= score <= total and total > 0, and its percentage is the one
    reported.  The difficulty reported is the one stored afterwards, and
    the recommendation is never the start message. *)
Theorem orchestrator_evaluate_quiz_records (round1 : float → float)
        (qs : list QuizQuestion) (user_answers : gmap Z string)
        (topic user_id now : string) (f : file) :
  qs ≠ [] →
  ∃ report f' r,
    LearningOrchestrator.evaluate_quiz round1 qs user_answers
                                        topic user_id now f
    = (Ok report, f')
    ∧ quiz_scores (stored f' user_id)
      = quiz_scores (stored f user_id) ++ [r]
    ∧ Storage.topic r = topic
    ∧ timestamp r = now
    ∧ Storage.score r = LearningOrchestrator.score report
    ∧ Storage.score r = count_correct (LearningOrchestrator.results report)
    ∧ Storage.total r = LearningOrchestrator.total report
    ∧ Storage.total r = Z.of_nat (length qs)
    ∧ (0 ≤ Storage.score r ≤ Storage.total r)%Z
    ∧ (0 < Storage.total r)%Z
    ∧ LearningOrchestrator.percentage report = Float (Storage.percentage r)
    ∧ LearningOrchestrator.new_difficulty report
      = current_difficulty (stored f' user_id)
    ∧ LearningOrchestrator.recommendation report
      ≠ "Start your learning journey!".
Proof.
  intros Hne.
  destruct (evaluate_quiz_nonempty qs user_answers topic now Hne)
    as (r & Hr & He).
  assert (Hlen : (0 < Z.of_nat (length qs))%Z)
    by (destruct qs; [done|simpl; lia]).
  destruct (new_record_nonzero
              topic (count_correct (fst (evaluate_loop user_answers 0 qs [] 0%Z)))
              (Z.of_nat (length qs)) now ltac:(lia))
    as (r' & Hr' & Ht & Hs & Htot & Hnow).
  rewrite Hr in Hr'. injection Hr' as <-.
  pose proof (count_correct_le (fst (evaluate_loop user_answers 0 qs [] 0%Z)))
    as Hc.
  rewrite evaluate_loop_length in Hc.
  unfold LearningOrchestrator.evaluate_quiz, Storage.bind, lift.
  rewrite He. simpl.
  change (PersonalisationEngine.update_quiz_score ?a ?b ?c ?d ?e ?g)
    with (tools.update_quiz_score a b c d e g).
  rewrite (update_quiz_score_eq _ _ _ _ _ _ r Hr).
  unfold PersonalisationEngine.get_recommendations.
  rewrite get_recommendations_eq.
  eexists _, _, r. split; [reflexivity|]. simpl.
  rewrite stored_save_eq.
  assert (Hq : quiz_scores (updated (stored f user_id) r)
               = quiz_scores (stored f user_id) ++ [r]).
  { unfold updated. simpl. by rewrite add_topic_quiz_scores. }
  split; [done|]. split; [done|]. split; [done|]. split; [done|].
  split; [done|]. split; [done|]. split; [done|]. split; [lia|].
  split; [lia|]. split; [done|]. split; [done|].
  rewrite Hq. destruct (quiz_scores (stored f user_id)); simpl;
    apply suggestion_band_not_start.
Qed.

Lemma orchestrator_evaluate_quiz_records_witness :
  four_questions ≠ []
  ∧ ∃ report f' r,
      LearningOrchestrator.evaluate_quiz no_rounding four_questions
                                          three_answers "sets" "alice" "t0"
                                          file_alice
      = (Ok report, f')
      ∧ quiz_scores (stored f' "alice")
        = quiz_scores (stored file_alice "alice") ++ [r]
      ∧ Storage.topic r = "sets"
      ∧ timestamp r = "t0"
      ∧ Storage.score r = LearningOrchestrator.score report
      ∧ Storage.score r = count_correct (LearningOrchestrator.results report)
      ∧ Storage.total r = LearningOrchestrator.total report
      ∧ Storage.total r = Z.of_nat (length four_questions)
      ∧ (0 ≤ Storage.score r ≤ Storage.total r)%Z
      ∧ (0 < Storage.total r)%Z
      ∧ LearningOrchestrator.percentage report = Float (Storage.percentage r)
      ∧ LearningOrchestrator.new_difficulty report
        = current_difficulty (stored f' "alice")
      ∧ LearningOrchestrator.recommendation report
        ≠ "Start your learning journey!".
Proof.
  split; [discriminate|].
  apply (orchestrator_evaluate_quiz_records no_rounding four_questions
           three_answers "sets" "alice" "t0" file_alice).
  discriminate.
Defined.

(** *** Inputs without a full block *)

Lemma parse_blocks_short (blocks : list string) :
  ∀ acc,
    Forall (λ b, (length (block_lines b) < 6)%nat) blocks →
    parse_blocks acc blocks = Ok acc.
Proof.
  unfold parse_blocks.
  induction blocks as [|b blocks IH]; intros acc Hall; [done|].
  apply Forall_cons in Hall as [Hb Hall]. simpl.
  rewrite parse_block_short by done. simpl. by apply IH.
Qed.

(** X22. An input in which every block has fewer than six non-blank lines
    (the empty input, blank text, a preamble, short questions) is parsed to
    the empty sequence, without an exception, whatever its lines are. *)
Theorem parse_quiz_short_blocks (quiz_text : string) :
  Forall (λ b, (length (block_lines b) < 6)%nat) (split quiz_text "---") →
  _parse_quiz quiz_text = Ok [].
Proof. apply parse_blocks_short. Qed.

Lemma parse_quiz_short_blocks_witness :
  Forall (λ b, (length (block_lines b) < 6)%nat)
         (split (text_four_lines +:+ "---" +:+ nl +:+ "Correct:") "---")
  ∧ _parse_quiz (text_four_lines +:+ "---" +:+ nl +:+ "Correct:") = Ok [].
Proof.
  assert (H : Forall (λ b, (length (block_lines b) < 6)%nat)
                (split (text_four_lines +:+ "---" +:+ nl +:+ "Correct:")
                       "---")).
  { apply Forall_forall. intros b Hb. apply list_elem_of_In in Hb.
    vm_compute in Hb. destruct Hb as [<-|[<-|[]]]; vm_compute; lia. }
  split; [exact H|].
  exact (parse_quiz_short_blocks
           (text_four_lines +:+ "---" +:+ nl +:+ "Correct:") H).
Defined.
